(** * Vector-search showcase: the connection registry and the document adapter

    A shallow embedding of [src/app/interface.py] (with the configuration
    records of [src/app/settings.py]).  The program is a dispatch layer over
    four third-party clients (Milvus, Pinecone, MongoDB, Qdrant) and an
    embedding model.  None of those collaborators is part of the repository,
    so every call that leaves the adapter is an explicit, logged event whose
    outcome (a value or a raised exception) is chosen by an arbitrary
    environment.  The adapter code itself is an executable program in a
    state-and-exception monad over that log, the Streamlit session state and
    the allocator of Python object identities. *)

From stdpp Require Import base option list strings gmap pretty.

Open Scope string_scope.
Open Scope Z_scope.
Open Scope list_scope.

(** ** Configuration ([settings.py]) *)

Record QDrantConfig := { qdrant_collection_name : string }.
Record MilvusConfig := { milvus_collection_name : string }.
Record MongoDBConfig :=
  { mongo_uri : string; mongo_db_name : string; mongo_collection_name : string }.
Record PineconeConfig := { pinecone_api_key : string; pinecone_index_name : string }.

Record Settings := {
  qdrant_database_config : QDrantConfig;
  milvus_database_config : MilvusConfig;
  mongodb_database_config : MongoDBConfig;
  pinecone_database_config : PineconeConfig
}.

(** ** Python exceptions and outcomes *)

Inductive PyError :=
| KeyError (key : string)
| IndexError
| TypeError
| BackendError (msg : string)
| Interrupt (name : string).  (* KeyboardInterrupt, SystemExit, GeneratorExit *)

(** [isinstance(e, Exception)]: everything but the exceptions that derive
    from [BaseException] alone. *)
Definition is_Exception (e : PyError) : bool :=
  match e with
  | Interrupt _ => false
  | _ => true
  end.

Inductive Outcome (A : Type) :=
| Returned (a : A)
| Raised (e : PyError).
Arguments Returned {A} a.
Arguments Raised {A} e.

#[global] Instance Outcome_ret : MRet Outcome := fun A a => Returned a.

#[global] Instance Outcome_bind : MBind Outcome := fun A B f o =>
  match o with
  | Returned a => f a
  | Raised e => Raised e
  end.

(** ** Client objects

    [CONNECTION_TYPES = MilvusClient | MongoClient | Pinecone | QdrantClient].
    A handle is a Python object: its class, which [isinstance] inspects, and
    its identity, which [is] compares. *)

Inductive ClientKind := MilvusClient | PineconeClient | MongoClient | QdrantClient.

Record Handle := { kind : ClientKind; oid : nat }.

#[global] Instance ClientKind_eq_dec : EqDecision ClientKind.
Proof. solve_decision. Defined.

#[global] Instance Handle_eq_dec : EqDecision Handle.
Proof. solve_decision. Defined.

Set Warnings "-register-all".

Section Adapter.

(** Floating-point numbers are only passed through by the adapter (scores,
    vector components); their carrier stays uninterpreted. *)
Context {float : Type}.

(** ** Python values that cross the SDK boundary *)

Inductive Value :=
| VStr (s : string)
| VInt (n : Z)
| VFloat (x : float)
| VArray (a : list float)            (* a numpy.ndarray *)
| VList (l : list Value)
| VDict (items : list (string * Value)).

(** An embedding vector, as the embedding model yields it. *)
Definition Vec := list float.

(** [emb.tolist()] *)
Definition tolist (emb : Vec) : Value := VList (VFloat <$> emb).

Fixpoint assoc (k : string) (items : list (string * Value)) : option Value :=
  match items with
  | [] => None
  | (k', v) :: rest => if decide (k' = k) then Some v else assoc k rest
  end.

(** [v[k]] on a dict *)
Definition getitem (v : Value) (k : string) : Outcome Value :=
  match v with
  | VDict items =>
      match assoc k items with
      | Some x => Returned x
      | None => Raised (KeyError k)
      end
  | _ => Raised TypeError
  end.

(** The keys of a dict, each once, in the order of their first item. *)
Definition keys (items : list (string * Value)) : list string :=
  foldr (fun k rest => k :: filter (fun k' => k' <> k) rest) [] (fst <$> items).

(** [for x in v]: the elements of a list or of an array, the keys of a dict,
    the characters of a string; numbers are not iterable. *)
Definition iter (v : Value) : Outcome (list Value) :=
  match v with
  | VList l => Returned l
  | VArray a => Returned (VFloat <$> a)
  | VDict items => Returned (VStr <$> keys items)
  | VStr s =>
      Returned ((fun c => VStr (String c EmptyString)) <$> String.list_ascii_of_string s)
  | VInt _ | VFloat _ => Raised TypeError
  end.

(** A hit of [QdrantClient.query] (an object with attributes). *)
Record QueryResponse := {
  metadata : Value;
  document : string;
  score : float
}.

(** ** Calls that leave the adapter

    One constructor per SDK entry point the source calls, indexed by the type
    of what the call hands back.  Results the source discards are [unit]. *)

Inductive Call : Type -> Type :=
| MilvusClient_init (self : Handle) (uri : string) : Call unit
| Milvus_create_collection (self : Handle) (collection_name : string)
    (dimension : Z) : Call unit
| Milvus_insert (self : Handle) (collection_name : string)
    (data : list Value) : Call unit
| Milvus_search (self : Handle) (collection_name : string) (data : list Vec)
    (limit : Z) (output_fields : list string) : Call (list (list Value))
| Pinecone_init (self : Handle) (api_key : string) : Call unit
| Pinecone_has_index (self : Handle) (name : string) : Call bool
| Pinecone_create_index_for_model (self : Handle) (name cloud region : string)
    (embed : Value) : Call unit
| Pinecone_Index (self : Handle) (name : string) : Call unit
| Index_upsert_records (client : Handle) (index_name : string)
    (namespace : string) (records : list Value) : Call unit
| Index_search (client : Handle) (index_name : string) (namespace : string)
    (query : Value) : Call Value
| MongoClient_init (self : Handle) (uri : string) : Call unit
| Mongo_insert_many (self : Handle) (db_name collection_name : string)
    (documents : list Value) : Call unit
| Mongo_aggregate (self : Handle) (db_name collection_name : string)
    (pipeline : list Value) : Call (list Value)
| QdrantClient_init (self : Handle) (location : string) : Call unit
| Qdrant_add (self : Handle) (collection_name : string)
    (documents : list string) (metadata : list Value) (ids : list string) : Call unit
| Qdrant_query (self : Handle) (collection_name : string) (query_text : string)
    (limit : Z) : Call (list QueryResponse)
| TextEmbedding_init : Call unit
| TextEmbedding_embed (texts : list string) : Call (list Vec)
| ObjectId_str : Call string
| uuid4_str : Call string.

(** What the log keeps of a call: the call and how it ended. *)
Record LogEntry := Entry {
  ev_type : Type;
  ev_call : Call ev_type;
  ev_result : Outcome ev_type
}.
Arguments Entry {ev_type} ev_call ev_result.

(** ** Program state

    [connections] is [st.session_state.connections]: [None] while the key is
    absent from the session state.  The dict is one shared object, so a
    store through the local name [connections] is a store into it. *)

Record State := {
  log : list LogEntry;
  next_oid : nat;
  connections : option (gmap string Handle)
}.

(** A session in which nothing has happened yet. *)
Definition fresh_session : State :=
  {| log := []; next_oid := 0; connections := None |}.

(** The cache as a mapping, whether or not the key exists yet. *)
Definition cache (s : State) : gmap string Handle := default ∅ (connections s).

(** The environment: every collaborator at once, as a function of everything
    that was asked of it before. *)
Variable oracle : forall R : Type, list LogEntry -> Call R -> Outcome R.

Variable settings : Settings.

Definition pinecone_settings := pinecone_database_config settings.
Definition milvus_settings := milvus_database_config settings.
Definition mongo_settings := mongodb_database_config settings.
Definition qdrant_settings := qdrant_database_config settings.

(** ** The monad of adapter code *)

Definition M (A : Type) : Type := State -> Outcome A * State.

#[global] Instance M_ret : MRet M := fun A a s => (Returned a, s).

#[global] Instance M_bind : MBind M := fun A B f m s =>
  match m s with
  | (Returned a, s') => f a s'
  | (Raised e, s') => (Raised e, s')
  end.

Definition raise {A} (e : PyError) : M A := fun s => (Raised e, s).

Definition lift {A} (o : Outcome A) : M A := fun s => (o, s).

(** Perform an external call: ask the environment, log call and outcome. *)
Definition perform {R} (c : Call R) : M R := fun s =>
  let r := oracle R (log s) c in
  (r, {| log := log s ++ [Entry c r];
         next_oid := next_oid s;
         connections := connections s |}).

(** Allocate a Python object of class [k]. *)
Definition new_object (k : ClientKind) : M Handle := fun s =>
  (Returned {| kind := k; oid := next_oid s |},
   {| log := log s; next_oid := S (next_oid s); connections := connections s |}).

(** [if "connections" not in st.session_state: st.session_state.connections = {}] *)
Definition init_connections : M unit := fun s =>
  (Returned tt,
   {| log := log s; next_oid := next_oid s;
      connections := Some (cache s) |}).

(** [connections = st.session_state.connections] *)
Definition get_connections : M (gmap string Handle) := fun s =>
  (Returned (cache s), s).

(** [connections[database_name] = client] *)
Definition set_connection (database_name : string) (client : Handle) : M unit :=
  fun s =>
  (Returned tt,
   {| log := log s; next_oid := next_oid s;
      connections := Some (<[database_name := client]> (cache s)) |}).

Fixpoint mapM {A B} (f : A -> M B) (l : list A) : M (list B) :=
  match l with
  | [] => mret []
  | x :: rest => y ← f x; ys ← mapM f rest; mret (y :: ys)
  end.

(** The same for a comprehension whose body makes no external call. *)
Fixpoint mapO {A B} (f : A -> Outcome B) (l : list A) : Outcome (list B) :=
  match l with
  | [] => Returned []
  | x :: rest =>
      match f x with
      | Raised e => Raised e
      | Returned y =>
          match mapO f rest with
          | Raised e => Raised e
          | Returned ys => Returned (y :: ys)
          end
      end
  end.

(** ** Connection registry: [get_connection] *)

(** [DATABASE_NAMES = Literal["Milvus", "Pinecone", "MongoDB", "QDrant"]] *)
Definition DATABASE_NAMES : list string := ["Milvus"; "Pinecone"; "MongoDB"; "QDrant"].

Definition new_MilvusClient (uri : string) : M Handle :=
  client ← new_object MilvusClient; perform (MilvusClient_init client uri);; mret client.

Definition new_Pinecone (api_key : string) : M Handle :=
  client ← new_object PineconeClient; perform (Pinecone_init client api_key);; mret client.

Definition new_MongoClient (uri : string) : M Handle :=
  client ← new_object MongoClient; perform (MongoClient_init client uri);; mret client.

Definition new_QdrantClient (location : string) : M Handle :=
  client ← new_object QdrantClient; perform (QdrantClient_init client location);; mret client.

Definition pinecone_embed : Value :=
  VDict [("model", VStr "llama-text-embed-v2");
         ("field_map", VDict [("text", VStr "text")])].

Definition get_connection (database_name : string) : M (option Handle) :=
  init_connections;;
  connections ← get_connections;
  match connections !! database_name with
  | Some client => mret (Some client)
  | None =>
      if decide (database_name = "Milvus") then
        client ← new_MilvusClient "milvus.db";
        perform (Milvus_create_collection client
                   (milvus_collection_name milvus_settings) 384);;
        set_connection database_name client;;
        mret (Some client)
      else if decide (database_name = "Pinecone") then
        client ← new_Pinecone (pinecone_api_key pinecone_settings);
        has ← perform (Pinecone_has_index client (pinecone_index_name pinecone_settings));
        (if negb has then
           perform (Pinecone_create_index_for_model client
                      (pinecone_index_name pinecone_settings)
                      "aws" "us-east-1" pinecone_embed)
         else mret tt);;
        set_connection database_name client;;
        mret (Some client)
      else if decide (database_name = "MongoDB") then
        client ← new_MongoClient (mongo_uri mongo_settings);
        set_connection database_name client;;
        mret (Some client)
      else if decide (database_name = "QDrant") then
        client ← new_QdrantClient ":memory:";
        set_connection database_name client;;
        mret (Some client)
      else mret None
  end.

(** ** Document adapter: [index_documents] *)

(** The dict built for position [i] of the Milvus batch. *)
Definition milvus_row (vectors : list Vec) (documents : list (string * string))
    (i : nat) : Outcome Value :=
  match vectors !! i with
  | None => Raised IndexError
  | Some v =>
      match documents !! i with
      | None => Raised IndexError
      | Some doc =>
          Returned (VDict [("id", VInt (Z.of_nat i));
                           ("vector", VArray v);
                           ("text", VStr doc.2);
                           ("title", VStr doc.1)])
      end
  end.

Definition pinecone_record (doc : string * string) : M Value :=
  _id ← perform ObjectId_str;
  mret (VDict [("_id", VStr _id); ("title", VStr doc.1); ("text", VStr doc.2)]).

Definition mongo_document (p : Vec * (string * string)) : Value :=
  let '(emb, doc) := p in
  VDict [("text", VStr doc.2); ("title", VStr doc.1); ("embedding", tolist emb)].

Definition qdrant_metadata (doc : string * string) : Value :=
  VDict [("title", VStr doc.1)].

Definition index_documents (connection : Handle)
    (documents : list (string * string)) : M unit :=
  match kind connection with
  | MilvusClient =>
      perform TextEmbedding_init;;
      vectors ← perform (TextEmbedding_embed (snd <$> documents));
      data ← lift (mapO (milvus_row vectors documents) (seq 0%nat (length vectors)));
      perform (Milvus_insert connection
                 (milvus_collection_name milvus_settings) data)
  | PineconeClient =>
      perform (Pinecone_Index connection (pinecone_index_name pinecone_settings));;
      records ← mapM pinecone_record documents;
      perform (Index_upsert_records connection
                 (pinecone_index_name pinecone_settings) "namespace" records)
  | MongoClient =>
      perform TextEmbedding_init;;
      embeddings ← perform (TextEmbedding_embed (snd <$> documents));
      perform (Mongo_insert_many connection
                 (mongo_db_name mongo_settings)
                 (mongo_collection_name mongo_settings)
                 (mongo_document <$> zip embeddings documents))
  | QdrantClient =>
      ids ← mapM (fun _ => perform uuid4_str) documents;
      perform (Qdrant_add connection
                 (qdrant_collection_name qdrant_settings)
                 (snd <$> documents)
                 (qdrant_metadata <$> documents)
                 ids)
  end.

(** ** Document adapter: [search_documents] *)

Definition SearchResult : Type := Value * Value * Value.

(** [(hit["entity"]["title"], hit["entity"]["text"], hit["distance"])] *)
Definition milvus_hit (hit : Value) : Outcome SearchResult :=
  entity ← getitem hit "entity";
  title ← getitem entity "title";
  entity' ← getitem hit "entity";
  text ← getitem entity' "text";
  distance ← getitem hit "distance";
  mret (title, text, distance).

(** [(hit["fields"]["title"], hit["fields"]["text"], hit["_score"])] *)
Definition pinecone_hit (hit : Value) : Outcome SearchResult :=
  fields ← getitem hit "fields";
  title ← getitem fields "title";
  fields' ← getitem hit "fields";
  text ← getitem fields' "text";
  _score ← getitem hit "_score";
  mret (title, text, _score).

(** [(doc["title"], doc["text"], doc["score"])] *)
Definition mongo_hit (doc : Value) : Outcome SearchResult :=
  title ← getitem doc "title";
  text ← getitem doc "text";
  score ← getitem doc "score";
  mret (title, text, score).

(** [(hit.metadata["title"], hit.document, hit.score)] *)
Definition qdrant_hit (hit : QueryResponse) : Outcome SearchResult :=
  title ← getitem (metadata hit) "title";
  mret (title, VStr (document hit), VFloat (score hit)).

Definition pinecone_query (query : string) (top_k : Z) : Value :=
  VDict [("inputs", VDict [("text", VStr query)]); ("top_k", VInt top_k)].

Definition mongo_pipeline (queryVector : Vec) (top_k : Z) : list Value :=
  [VDict [("$vectorSearch",
           VDict [("index", VStr "default");
                  ("path", VStr "embedding");
                  ("queryVector", tolist queryVector);
                  ("numCandidates", VInt 100);
                  ("limit", VInt top_k)])];
   VDict [("$project",
           VDict [("title", VInt 1);
                  ("text", VInt 1);
                  ("score", VDict [("$meta", VStr "vectorSearchScore")])])]].

Definition search_documents (connection : Handle) (query : string)
    (top_k : Z) : M (list SearchResult) :=
  match kind connection with
  | MilvusClient =>
      perform TextEmbedding_init;;
      query_vectors ← perform (TextEmbedding_embed [query]);
      res ← perform (Milvus_search connection
                       (milvus_collection_name milvus_settings)
                       query_vectors top_k ["title"; "text"]);
      lift (mapO milvus_hit (concat res))
  | PineconeClient =>
      perform (Pinecone_Index connection (pinecone_index_name pinecone_settings));;
      results ← perform (Index_search connection
                           (pinecone_index_name pinecone_settings)
                           "namespace" (pinecone_query query top_k));
      lift (result ← getitem results "result";
            hits ← getitem result "hits";
            hits ← iter hits;
            mapO pinecone_hit hits)
  | MongoClient =>
      perform TextEmbedding_init;;
      query_vectors ← perform (TextEmbedding_embed [query]);
      query_vector ← lift (match query_vectors !! 0%nat with
                           | Some v => Returned v
                           | None => Raised IndexError
                           end);
      docs ← perform (Mongo_aggregate connection
                        (mongo_db_name mongo_settings)
                        (mongo_collection_name mongo_settings)
                        (mongo_pipeline query_vector top_k));
      lift (mapO mongo_hit docs)
  | QdrantClient =>
      res ← perform (Qdrant_query connection
                       (qdrant_collection_name qdrant_settings) query top_k);
      lift (mapO qdrant_hit res)
  end.

(** The default of [top_k]. *)
Definition default_top_k : Z := 3.

(** ** Observations on the log *)

(** Did the call come back, or did it raise? *)
Definition came_back (en : LogEntry) : bool :=
  match ev_result en with
  | Returned _ => true
  | Raised _ => false
  end.

(** The class a call constructs a client of, if it is a constructor. *)
Definition constructs {R} (c : Call R) : option ClientKind :=
  match c with
  | MilvusClient_init _ _ => Some MilvusClient
  | Pinecone_init _ _ => Some PineconeClient
  | MongoClient_init _ _ => Some MongoClient
  | QdrantClient_init _ _ => Some QdrantClient
  | _ => None
  end.

(** Calls that create a collection or an index on the backend. *)
Definition creates {R} (c : Call R) : bool :=
  match c with
  | Milvus_create_collection _ _ _ => true
  | Pinecone_create_index_for_model _ _ _ _ _ => true
  | _ => false
  end.

(** The number of records a write call carries, if it is a write call. *)
Definition batch_size {R} (c : Call R) : option nat :=
  match c with
  | Milvus_insert _ _ data => Some (length data)
  | Index_upsert_records _ _ _ records => Some (length records)
  | Mongo_insert_many _ _ _ documents => Some (length documents)
  | Qdrant_add _ _ documents _ _ => Some (length documents)
  | _ => None
  end.

(** The SDK entry point behind a call. *)
Definition call_name {R} (c : Call R) : string :=
  match c with
  | MilvusClient_init _ _ => "MilvusClient"
  | Milvus_create_collection _ _ _ => "create_collection"
  | Milvus_insert _ _ _ => "insert"
  | Milvus_search _ _ _ _ _ => "search"
  | Pinecone_init _ _ => "Pinecone"
  | Pinecone_has_index _ _ => "has_index"
  | Pinecone_create_index_for_model _ _ _ _ _ => "create_index_for_model"
  | Pinecone_Index _ _ => "Index"
  | Index_upsert_records _ _ _ _ => "upsert_records"
  | Index_search _ _ _ _ => "Index.search"
  | MongoClient_init _ _ => "MongoClient"
  | Mongo_insert_many _ _ _ _ => "insert_many"
  | Mongo_aggregate _ _ _ _ => "aggregate"
  | QdrantClient_init _ _ => "QdrantClient"
  | Qdrant_add _ _ _ _ _ => "add"
  | Qdrant_query _ _ _ _ => "query"
  | TextEmbedding_init => "TextEmbedding"
  | TextEmbedding_embed _ => "embed"
  | ObjectId_str => "ObjectId"
  | uuid4_str => "uuid4"
  end.

Definition call_names (l : list LogEntry) : list string :=
  (fun en => call_name (ev_call en)) <$> l.

Definition constructions (l : list LogEntry) : list ClientKind :=
  omap (fun en => constructs (ev_call en)) l.

Definition creations (l : list LogEntry) : nat :=
  length (filter (fun en => creates (ev_call en)) l).

Definition writes (l : list LogEntry) : list nat :=
  omap (fun en => batch_size (ev_call en)) l.

(** The identifiers a write call assigns to its records, in batch order. *)
Definition record_id (key : string) (record : Value) : list Value :=
  match getitem record key with
  | Returned i => [i]
  | Raised _ => []
  end.

Definition written_ids {R} (c : Call R) : list Value :=
  match c with
  | Milvus_insert _ _ data => data ≫= record_id "id"
  | Index_upsert_records _ _ _ records => records ≫= record_id "_id"
  | Mongo_insert_many _ _ _ documents => documents ≫= record_id "_id"
  | Qdrant_add _ _ _ _ ids => VStr <$> ids
  | _ => []
  end.

Definition ids_written (l : list LogEntry) : list Value :=
  l ≫= (fun en => written_ids (ev_call en)).

(** The hits a query call was answered with, in the order of the answer. *)
Inductive Hit :=
| DictHit (hit : Value)
| ObjectHit (hit : QueryResponse).

Definition hits_of_results (results : Value) : Outcome (list Value) :=
  result ← getitem results "result";
  hits ← getitem result "hits";
  iter hits.

Definition answered_hits (en : LogEntry) : option (list Hit) :=
  match ev_call en in Call R return Outcome R -> option (list Hit) with
  | Milvus_search _ _ _ _ _ => fun r =>
      match r with
      | Returned res => Some (DictHit <$> concat res)
      | Raised _ => None
      end
  | Index_search _ _ _ _ => fun r =>
      match r with
      | Returned results =>
          match hits_of_results results with
          | Returned hits => Some (DictHit <$> hits)
          | Raised _ => None
          end
      | Raised _ => None
      end
  | Mongo_aggregate _ _ _ _ => fun r =>
      match r with
      | Returned docs => Some (DictHit <$> docs)
      | Raised _ => None
      end
  | Qdrant_query _ _ _ _ => fun r =>
      match r with
      | Returned res => Some (ObjectHit <$> res)
      | Raised _ => None
      end
  | _ => fun _ => None
  end (ev_result en).

(** The [limit] a query call asked for. *)
Definition asked_limit {R} (c : Call R) : option Value :=
  match c with
  | Milvus_search _ _ _ limit _ => Some (VInt limit)
  | Index_search _ _ _ query =>
      match getitem query "top_k" with Returned k => Some k | Raised _ => None end
  | Mongo_aggregate _ _ _ (VDict [(_, stage)] :: _) =>
      match getitem stage "limit" with Returned k => Some k | Raised _ => None end
  | Qdrant_query _ _ _ limit => Some (VInt limit)
  | _ => None
  end.


(** The tuple the adapter makes of one hit, per client class. *)
Definition hit_tuple (k : ClientKind) (hit : Hit) : Outcome SearchResult :=
  match k, hit with
  | MilvusClient, DictHit h => milvus_hit h
  | PineconeClient, DictHit h => pinecone_hit h
  | MongoClient, DictHit h => mongo_hit h
  | QdrantClient, ObjectHit h => qdrant_hit h
  | _, _ => Raised TypeError
  end.

(** ** How a run relates to the calls it logged

    [Propagated o delta]: of the calls [delta] made by a run with outcome [o],
    either none raised, or exactly the last one did and [o] is that very
    exception. *)
Inductive Propagated {A} (o : Outcome A) (delta : list LogEntry) : Prop :=
| no_failure :
    forallb came_back delta = true -> Propagated o delta
| last_call_failed pre R (c : Call R) e :
    delta = pre ++ [Entry c (Raised e)] ->
    forallb came_back pre = true ->
    o = Raised e ->
    Propagated o delta.

Definition propagates {A} (m : M A) : Prop :=
  forall s, exists delta, log (m s).2 = log s ++ delta /\ Propagated (m s).1 delta.

(** Code that leaves the session state and the allocator alone. *)
Definition stateless {A} (m : M A) : Prop :=
  forall s, connections (m s).2 = connections s /\ next_oid (m s).2 = next_oid s.

(** The contract of the embedding collaborator: one vector per text. *)
Definition embeds_each_text : Prop :=
  forall l texts vectors,
    oracle _ l (TextEmbedding_embed texts) = Returned vectors ->
    length vectors = length texts.

(** An environment in which no call ever raises. *)
Definition never_raises : Prop :=
  forall R l (c : Call R) e, oracle R l c <> Raised e.

End Adapter.

Arguments Entry {float ev_type} ev_call ev_result.

(** ** Concrete environments

    Executable collaborators over integer-valued scores, used to run the
    adapter on concrete inputs.  [store_oracle] is an idealised backend: every
    call succeeds, texts embed injectively (their character codes), Milvus
    and Qdrant keep what was written and answer a query with the stored
    records that match it exactly, oldest first, cut at [limit].
    The others differ from it in one place each: with [stub_oracle] Qdrant
    answers every query with one canned hit, whatever the limit; with
    [strict_oracle] Milvus rejects a limit below 1; with [down_oracle] the
    Milvus server is unreachable. *)

Module Demo.

Definition settings : Settings := {|
  qdrant_database_config := {| qdrant_collection_name := "docs" |};
  milvus_database_config := {| milvus_collection_name := "docs" |};
  mongodb_database_config :=
    {| mongo_uri := "mongodb://localhost"; mongo_db_name := "demo";
       mongo_collection_name := "docs" |};
  pinecone_database_config :=
    {| pinecone_api_key := "key"; pinecone_index_name := "docs" |}
|}.

Definition Log : Type := list (@LogEntry Z).

Definition embed_text (t : string) : list Z :=
  (fun a => Z.of_nat (Ascii.nat_of_ascii a)) <$> String.list_ascii_of_string t.

Definition milvus_stored (l : Log) : list Value :=
  l ≫= (fun en =>
    match ev_call en with
    | Milvus_insert _ _ data => data
    | _ => []
    end).

Definition row_matches (qv : list Z) (row : Value) : bool :=
  match getitem row "vector" with
  | Returned (VArray v) => bool_decide (v = qv)
  | _ => false
  end.

Definition milvus_entity (row : @Value Z) : Value :=
  match getitem row "id", getitem row "title", getitem row "text" with
  | Returned i, Returned t, Returned x =>
      VDict [("id", i); ("distance", VFloat 0);
             ("entity", VDict [("title", t); ("text", x)])]
  | _, _, _ => VDict []
  end.

Definition milvus_answer (l : Log) (data : list (list Z)) (limit : Z)
    : list (list Value) :=
  (fun qv => take (Z.to_nat limit)
               (milvus_entity <$> filter (fun r => row_matches qv r) (milvus_stored l)))
  <$> data.

Definition qdrant_stored (l : Log) : list (string * Value) :=
  l ≫= (fun en =>
    match ev_call en with
    | Qdrant_add _ _ documents metadata _ => zip documents metadata
    | _ => []
    end).

Definition qdrant_point (p : string * @Value Z) : QueryResponse :=
  {| metadata := p.2; document := p.1; score := 1 |}.

Definition qdrant_answer (l : Log) (query_text : string) (limit : Z)
    : list QueryResponse :=
  take (Z.to_nat limit)
       (qdrant_point <$> filter (fun p => p.1 = query_text) (qdrant_stored l)).

Definition store_oracle (R : Type) (l : Log) (c : Call R) : Outcome R :=
  match c in Call R return Outcome R with
  | MilvusClient_init _ _ => Returned tt
  | Milvus_create_collection _ _ _ => Returned tt
  | Milvus_insert _ _ _ => Returned tt
  | Milvus_search _ _ data limit _ => Returned (milvus_answer l data limit)
  | Pinecone_init _ _ => Returned tt
  | Pinecone_has_index _ _ => Returned false
  | Pinecone_create_index_for_model _ _ _ _ _ => Returned tt
  | Pinecone_Index _ _ => Returned tt
  | Index_upsert_records _ _ _ _ => Returned tt
  | Index_search _ _ _ _ => Returned (VDict [("result", VDict [("hits", VList [])])])
  | MongoClient_init _ _ => Returned tt
  | Mongo_insert_many _ _ _ _ => Returned tt
  | Mongo_aggregate _ _ _ _ => Returned []
  | QdrantClient_init _ _ => Returned tt
  | Qdrant_add _ _ _ _ _ => Returned tt
  | Qdrant_query _ _ query_text limit => Returned (qdrant_answer l query_text limit)
  | TextEmbedding_init => Returned tt
  | TextEmbedding_embed texts => Returned (embed_text <$> texts)
  | ObjectId_str => Returned ("oid-" +:+ pretty (length l))
  | uuid4_str => Returned ("uuid-" +:+ pretty (length l))
  end.

Definition canned_hit : @QueryResponse Z :=
  {| metadata := VDict [("title", VStr "a.txt")];
     document := "cats are mammals";
     score := 1 |}.

Definition stub_oracle (R : Type) (l : Log) (c : Call R) : Outcome R :=
  match c in Call R return Outcome R -> Outcome R with
  | Qdrant_query _ _ _ _ => fun _ => Returned [canned_hit]
  | _ => fun answer => answer
  end (store_oracle R l c).

(** Milvus as a server that rejects a query whose limit is not positive. *)
Definition bad_limit : PyError := BackendError "milvus: limit should be in [1, 16384]".

Definition strict_oracle (R : Type) (l : Log) (c : Call R) : Outcome R :=
  match c in Call R return Outcome R -> Outcome R with
  | Milvus_search _ _ _ limit _ => fun answer =>
      if decide (limit < 1) then Raised bad_limit else answer
  | _ => fun answer => answer
  end (store_oracle R l c).

(** The Milvus server cannot be reached: whatever is asked of the Milvus
    client after its construction raises. *)
Definition unreachable : PyError := BackendError "milvus: connection refused".

Definition down_oracle (R : Type) (l : Log) (c : Call R) : Outcome R :=
  match c in Call R return Outcome R -> Outcome R with
  | Milvus_create_collection _ _ _ => fun _ => Raised unreachable
  | Milvus_insert _ _ _ => fun _ => Raised unreachable
  | Milvus_search _ _ _ _ _ => fun _ => Raised unreachable
  | _ => fun answer => answer
  end (store_oracle R l c).

(** Batches and the session the runs start from. *)
Definition two_documents : list (string * string) :=
  [("a.txt", "cats are mammals"); ("b.txt", "the stock market fell today")].


Definition start : @State Z := fresh_session.

(** Handles as [get_connection] hands them out in a fresh session. *)
Definition milvus : Handle := {| kind := MilvusClient; oid := 0 |}.
Definition pinecone : Handle := {| kind := PineconeClient; oid := 0 |}.
Definition qdrant : Handle := {| kind := QdrantClient; oid := 0 |}.

(** The runs the properties are tried on. *)
Definition one_result : list (@SearchResult Z) :=
  [(VStr "a.txt", VStr "cats are mammals", VFloat 1)].

Definition connect_milvus := get_connection store_oracle settings "Milvus" start.

Definition connect_chroma := get_connection store_oracle settings "Chroma" start.


Definition connect_while_down := get_connection down_oracle settings "Milvus" start.

Definition index_nothing := index_documents store_oracle settings milvus [] start.

Definition index_two := index_documents store_oracle settings milvus two_documents start.

Definition index_two_batches :=
  (index_documents store_oracle settings milvus [("a.txt", "cats are mammals")]
     ≫= fun _ =>
   index_documents store_oracle settings milvus
     [("b.txt", "the stock market fell today")]) start.

Definition qdrant_indexed : State :=
  (index_documents store_oracle settings qdrant two_documents start).2.

Definition search_cats :=
  search_documents store_oracle settings qdrant "cats are mammals" 3 qdrant_indexed.


Definition search_zero :=
  search_documents stub_oracle settings qdrant "feline animals" 0 start.

Definition search_zero_strict :=
  search_documents strict_oracle settings milvus "feline animals" 0 start.


End Demo.

(** ** Sessions over time

    What a session goes through is a sequence of adapter operations, each of
    which ends somehow; [later] relates a session to every session that can
    follow it. *)

Section Sessions.

Context {float : Type}.
Variable oracle : forall R : Type, list (@LogEntry float) -> @Call float R -> Outcome R.
Variable settings : Settings.

Inductive step (s : State) : State -> Prop :=
| step_get_connection database_name :
    step s (get_connection oracle settings database_name s).2
| step_index_documents connection documents :
    step s (index_documents oracle settings connection documents s).2
| step_search_documents connection query top_k :
    step s (search_documents oracle settings connection query top_k s).2.

Definition later : State -> State -> Prop := rtc step.

(** The class of client each branch of [get_connection] constructs. *)
Definition client_class (database_name : string) : option ClientKind :=
  if decide (database_name = "Milvus") then Some MilvusClient
  else if decide (database_name = "Pinecone") then Some PineconeClient
  else if decide (database_name = "MongoDB") then Some MongoClient
  else if decide (database_name = "QDrant") then Some QdrantClient
  else None.

(** The (title, text, score) of a hit, backend by backend: where each
    backend keeps the title and the text of the record it found, and what
    it calls the score.  Milvus answers with dicts that hold the requested
    fields under ["entity"] and the distance under ["distance"]; Pinecone
    with dicts that hold them under ["fields"] and the score under
    ["_score"]; MongoDB with the projected documents; Qdrant with objects
    whose payload holds the title, whose document is the text and whose
    score is a number. *)
Inductive tuple_of : ClientKind -> @Hit float -> @SearchResult float -> Prop :=
| tuple_of_milvus hit entity title text distance :
    getitem hit "entity" = Returned entity ->
    getitem entity "title" = Returned title ->
    getitem entity "text" = Returned text ->
    getitem hit "distance" = Returned distance ->
    tuple_of MilvusClient (DictHit hit) (title, text, distance)
| tuple_of_pinecone hit fields title text _score :
    getitem hit "fields" = Returned fields ->
    getitem fields "title" = Returned title ->
    getitem fields "text" = Returned text ->
    getitem hit "_score" = Returned _score ->
    tuple_of PineconeClient (DictHit hit) (title, text, _score)
| tuple_of_mongo doc title text score :
    getitem doc "title" = Returned title ->
    getitem doc "text" = Returned text ->
    getitem doc "score" = Returned score ->
    tuple_of MongoClient (DictHit doc) (title, text, score)
| tuple_of_qdrant hit title :
    getitem (metadata hit) "title" = Returned title ->
    tuple_of QdrantClient (ObjectHit hit)
      (title, VStr (document hit), VFloat (score hit)).

(** What setting a backend up consists of, call by call, each call having
    come back: Milvus needs its collection created with the dimension of
    the embedding (384); Pinecone needs its index, created with the
    embedding model bound to the text field unless it exists already
    ([index_exists] is the answer to that question); MongoDB and Qdrant
    need the client only. *)
Definition setup_calls (database_name : string) (client : Handle)
    (index_exists : bool) : list (@LogEntry float) :=
  if decide (database_name = "Milvus") then
    [Entry (MilvusClient_init client "milvus.db") (Returned tt);
     Entry (Milvus_create_collection client
              (milvus_collection_name (milvus_database_config settings)) 384)
           (Returned tt)]
  else if decide (database_name = "Pinecone") then
    [Entry (Pinecone_init client (pinecone_api_key (pinecone_database_config settings)))
           (Returned tt);
     Entry (Pinecone_has_index client
              (pinecone_index_name (pinecone_database_config settings)))
           (Returned index_exists)]
    ++ (if index_exists then []
        else [Entry (Pinecone_create_index_for_model client
                       (pinecone_index_name (pinecone_database_config settings))
                       "aws" "us-east-1"
                       (VDict [("model", VStr "llama-text-embed-v2");
                               ("field_map", VDict [("text", VStr "text")])]))
                    (Returned tt)])
  else if decide (database_name = "MongoDB") then
    [Entry (MongoClient_init client (mongo_uri (mongodb_database_config settings)))
           (Returned tt)]
  else if decide (database_name = "QDrant") then
    [Entry (QdrantClient_init client ":memory:") (Returned tt)]
  else [].

(** The identifiers the generators ([ObjectId], [uuid4]) handed out. *)
Definition generated_id (en : @LogEntry float) : option string :=
  match ev_call en in Call R return Outcome R -> option string with
  | ObjectId_str => fun r =>
      match r with Returned i => Some i | Raised _ => None end
  | uuid4_str => fun r =>
      match r with Returned i => Some i | Raised _ => None end
  | _ => fun _ => None
  end (ev_result en).

Definition generated_ids (l : list (@LogEntry float)) : list string :=
  omap generated_id l.

(** Code whose every call is one that [P] allows. *)
Definition emits {A} (P : @LogEntry float -> Prop) (m : @M float A) : Prop :=
  forall s, exists delta, log (m s).2 = log s ++ delta /\ Forall P delta.

(** Calls that ask a backend for hits, and those of a log. *)
Definition is_query {R} (c : @Call float R) : bool :=
  match c with
  | Milvus_search _ _ _ _ _ => true
  | Index_search _ _ _ _ => true
  | Mongo_aggregate _ _ _ _ => true
  | Qdrant_query _ _ _ _ => true
  | _ => false
  end.

Definition queries (l : list (@LogEntry float)) : list (@LogEntry float) :=
  filter (fun en => is_query (ev_call en) = true) l.

(** Calls that neither write records nor query. *)
Definition connects_only (en : @LogEntry float) : Prop :=
  batch_size (ev_call en) = None /\ is_query (ev_call en) = false.

(** Calls that write no record and, if they query, ask for [top_k] hits. *)
Definition reads_only (top_k : Z) (en : @LogEntry float) : Prop :=
  batch_size (ev_call en) = None
  /\ (is_query (ev_call en) = true ->
      asked_limit (ev_call en) = Some (VInt top_k)).

(** Calls that do not query. *)
Definition asks_nothing (en : @LogEntry float) : Prop :=
  is_query (ev_call en) = false.

(** The same, generator by generator. *)
Definition object_id (en : @LogEntry float) : option string :=
  match ev_call en in Call R return Outcome R -> option string with
  | ObjectId_str => fun r =>
      match r with Returned i => Some i | Raised _ => None end
  | _ => fun _ => None
  end (ev_result en).

Definition object_ids (l : list (@LogEntry float)) : list string :=
  omap object_id l.

Definition uuid (en : @LogEntry float) : option string :=
  match ev_call en in Call R return Outcome R -> option string with
  | uuid4_str => fun r =>
      match r with Returned i => Some i | Raised _ => None end
  | _ => fun _ => None
  end (ev_result en).

Definition uuids (l : list (@LogEntry float)) : list string :=
  omap uuid l.

(** The record [index_documents] writes to Pinecone for one document. *)
Definition pinecone_row (_id : string) (doc : string * string) : @Value float :=
  VDict [("_id", VStr _id); ("title", VStr doc.1); ("text", VStr doc.2)].

End Sessions.

(** ** What a backend holds and what it is asked

    For the round trip from [index_documents] to [search_documents] the
    backends are described by what the calls of the session wrote to them.
    A record is stored in a place (a client with the collection, index or
    namespace named in the call) under the key the backend searches by: the
    vector it was written with on Milvus and MongoDB, its text on Pinecone
    and Qdrant, which embed the text themselves. *)

Section Retrieval.

Context {float : Type} `{!EqDecision float}.

Inductive Key :=
| KText (text : string)
| KVec (vector : list float).

#[global] Instance Key_eq_dec : EqDecision Key.
Proof. solve_decision. Defined.

Definition Place : Type := Handle * list string.

Record Stored := {
  rec_place : Place;
  rec_key : Key;
  rec_title : @Value float;
  rec_text : @Value float
}.

(** A list of floats, read back from the list [tolist] makes. *)
Fixpoint floats (l : list (@Value float)) : option (list float) :=
  match l with
  | [] => Some []
  | VFloat x :: rest => cons x <$> floats rest
  | _ => None
  end.

Definition vector_of (v : @Value float) : option (list float) :=
  match v with
  | VArray a => Some a
  | VList l => floats l
  | _ => None
  end.

(** A record of a write call that has a key, a title and a text. *)
Definition vector_record (field : string) (p : Place) (record : @Value float)
    : option Stored :=
  match getitem record field, getitem record "title", getitem record "text" with
  | Returned v, Returned title, Returned text =>
      (fun vector => {| rec_place := p; rec_key := KVec vector;
                        rec_title := title; rec_text := text |}) <$> vector_of v
  | _, _, _ => None
  end.

Definition text_record (p : Place) (record : @Value float) : option Stored :=
  match getitem record "title", getitem record "text" with
  | Returned title, Returned (VStr text) =>
      Some {| rec_place := p; rec_key := KText text;
              rec_title := title; rec_text := VStr text |}
  | _, _ => None
  end.

Definition qdrant_record (p : Place) (point : string * @Value float) : option Stored :=
  match getitem point.2 "title" with
  | Returned title =>
      Some {| rec_place := p; rec_key := KText point.1;
              rec_title := title; rec_text := VStr point.1 |}
  | Raised _ => None
  end.

(** What a write call stored, if it came back. *)
Definition stored_by (en : @LogEntry float) : list Stored :=
  if came_back en then
    match ev_call en with
    | Milvus_insert h collection_name data =>
        omap (vector_record "vector" (h, [collection_name])) data
    | Index_upsert_records h index_name namespace records =>
        omap (text_record (h, [index_name; namespace])) records
    | Mongo_insert_many h db_name collection_name documents =>
        omap (vector_record "embedding" (h, [db_name; collection_name])) documents
    | Qdrant_add h collection_name documents metadata _ =>
        omap (qdrant_record (h, [collection_name])) (zip documents metadata)
    | _ => []
    end
  else [].

Definition stored (l : list (@LogEntry float)) : list Stored := l ≫= stored_by.

(** The records of a place stored under a key. *)
Definition matching (p : Place) (k : Key) (records : list Stored) : list Stored :=
  filter (fun r => rec_place r = p /\ rec_key r = k) records.


Variable oracle : forall R : Type, list (@LogEntry float) -> @Call float R -> Outcome R.
Variable settings : Settings.





End Retrieval.

(** * Configuration loading ([settings.py], and the head of [interface.py])

    Constructing a settings class reads the process environment and the
    [.env] file and validates what it finds; that is the one call that leaves
    the program here, and it raises when a field is missing.  The caches are
    program state: one [lru_cache] per [get_settings], and the private
    attribute each property of [Settings] keeps on the instance.  [Settings]
    instances are mutated through those attributes, so they live in a store
    and are passed by reference. *)

(** A state-and-exception monad over any state. *)
Definition StateExc (S A : Type) : Type := S -> Outcome A * S.

#[global] Instance StateExc_ret {S} : MRet (StateExc S) :=
  fun A a s => (Returned a, s).

#[global] Instance StateExc_bind {S} : MBind (StateExc S) := fun A B f m s =>
  match m s with
  | (Returned a, s') => f a s'
  | (Raised e, s') => (Raised e, s')
  end.

Module Config.

Inductive ConfigCall : Type -> Type :=
| QDrantConfig_init : ConfigCall QDrantConfig
| MilvusConfig_init : ConfigCall MilvusConfig
| MongoDBConfig_init : ConfigCall MongoDBConfig
| PineconeConfig_init : ConfigCall PineconeConfig
| Settings_init : ConfigCall (Z * string).

Record ConfigEntry := Loaded {
  cfg_type : Type;
  cfg_call : ConfigCall cfg_type;
  cfg_result : Outcome cfg_type
}.
Arguments Loaded {cfg_type} cfg_call cfg_result.

(** An instance of [Settings]: its two fields, and the private attributes the
    properties set ([None] while the instance has no such attribute). *)
Record SettingsObject := {
  streamlit_server_port : Z;
  streamlit_server_address : string;
  _qdrant_database_config : option QDrantConfig;
  _milvus_database_config : option MilvusConfig;
  _mongodb_database_config : option MongoDBConfig;
  _pinecone_database_config : option PineconeConfig
}.

Record ConfigState := {
  loads : list ConfigEntry;
  objects : list SettingsObject;            (* the instances, by reference *)
  QDrantConfig_cache : option QDrantConfig; (* lru_cache of each get_settings *)
  MilvusConfig_cache : option MilvusConfig;
  MongoDBConfig_cache : option MongoDBConfig;
  PineconeConfig_cache : option PineconeConfig;
  Settings_cache : option nat
}.

(** A process in which nothing was loaded yet. *)
Definition fresh_process : ConfigState :=
  {| loads := []; objects := [];
     QDrantConfig_cache := None; MilvusConfig_cache := None;
     MongoDBConfig_cache := None; PineconeConfig_cache := None;
     Settings_cache := None |}.

Definition call_name {R} (c : ConfigCall R) : string :=
  match c with
  | QDrantConfig_init => "QDrantConfig"
  | MilvusConfig_init => "MilvusConfig"
  | MongoDBConfig_init => "MongoDBConfig"
  | PineconeConfig_init => "PineconeConfig"
  | Settings_init => "Settings"
  end.

Definition loaded (st : ConfigState) : list string :=
  (fun en => call_name (cfg_call en)) <$> loads st.

Section Loading.

Variable environment : forall R : Type, list ConfigEntry -> ConfigCall R -> Outcome R.

Definition Cfg (A : Type) : Type := StateExc ConfigState A.

Definition construct {R} (c : ConfigCall R) : Cfg R := fun st =>
  let r := environment R (loads st) c in
  (r, {| loads := loads st ++ [Loaded c r];
         objects := objects st;
         QDrantConfig_cache := QDrantConfig_cache st;
         MilvusConfig_cache := MilvusConfig_cache st;
         MongoDBConfig_cache := MongoDBConfig_cache st;
         PineconeConfig_cache := PineconeConfig_cache st;
         Settings_cache := Settings_cache st |}).

(** [QDrantConfig.get_settings()], under [lru_cache]: the constructor runs on
    the first call, and its result is kept only if it returns. *)
Definition QDrantConfig_get_settings : Cfg QDrantConfig := fun st =>
  match QDrantConfig_cache st with
  | Some c => (Returned c, st)
  | None =>
      match construct QDrantConfig_init st with
      | (Returned c, st') =>
          (Returned c,
           {| loads := loads st'; objects := objects st';
              QDrantConfig_cache := Some c;
              MilvusConfig_cache := MilvusConfig_cache st';
              MongoDBConfig_cache := MongoDBConfig_cache st';
              PineconeConfig_cache := PineconeConfig_cache st';
              Settings_cache := Settings_cache st' |})
      | (Raised e, st') => (Raised e, st')
      end
  end.

Definition MilvusConfig_get_settings : Cfg MilvusConfig := fun st =>
  match MilvusConfig_cache st with
  | Some c => (Returned c, st)
  | None =>
      match construct MilvusConfig_init st with
      | (Returned c, st') =>
          (Returned c,
           {| loads := loads st'; objects := objects st';
              QDrantConfig_cache := QDrantConfig_cache st';
              MilvusConfig_cache := Some c;
              MongoDBConfig_cache := MongoDBConfig_cache st';
              PineconeConfig_cache := PineconeConfig_cache st';
              Settings_cache := Settings_cache st' |})
      | (Raised e, st') => (Raised e, st')
      end
  end.

Definition MongoDBConfig_get_settings : Cfg MongoDBConfig := fun st =>
  match MongoDBConfig_cache st with
  | Some c => (Returned c, st)
  | None =>
      match construct MongoDBConfig_init st with
      | (Returned c, st') =>
          (Returned c,
           {| loads := loads st'; objects := objects st';
              QDrantConfig_cache := QDrantConfig_cache st';
              MilvusConfig_cache := MilvusConfig_cache st';
              MongoDBConfig_cache := Some c;
              PineconeConfig_cache := PineconeConfig_cache st';
              Settings_cache := Settings_cache st' |})
      | (Raised e, st') => (Raised e, st')
      end
  end.

Definition PineconeConfig_get_settings : Cfg PineconeConfig := fun st =>
  match PineconeConfig_cache st with
  | Some c => (Returned c, st)
  | None =>
      match construct PineconeConfig_init st with
      | (Returned c, st') =>
          (Returned c,
           {| loads := loads st'; objects := objects st';
              QDrantConfig_cache := QDrantConfig_cache st';
              MilvusConfig_cache := MilvusConfig_cache st';
              MongoDBConfig_cache := MongoDBConfig_cache st';
              PineconeConfig_cache := Some c;
              Settings_cache := Settings_cache st' |})
      | (Raised e, st') => (Raised e, st')
      end
  end.

(** [Settings()]: a new instance, without any private attribute. *)
Definition Settings_new : Cfg nat := fun st =>
  match construct Settings_init st with
  | (Returned (port, address), st') =>
      (Returned (length (objects st')),
       {| loads := loads st';
          objects := objects st' ++
            [{| streamlit_server_port := port;
                streamlit_server_address := address;
                _qdrant_database_config := None;
                _milvus_database_config := None;
                _mongodb_database_config := None;
                _pinecone_database_config := None |}];
          QDrantConfig_cache := QDrantConfig_cache st';
          MilvusConfig_cache := MilvusConfig_cache st';
          MongoDBConfig_cache := MongoDBConfig_cache st';
          PineconeConfig_cache := PineconeConfig_cache st';
          Settings_cache := Settings_cache st' |})
  | (Raised e, st') => (Raised e, st')
  end.

(** [Settings.get_settings()] *)
Definition get_settings : Cfg nat := fun st =>
  match Settings_cache st with
  | Some self => (Returned self, st)
  | None =>
      match Settings_new st with
      | (Returned self, st') =>
          (Returned self,
           {| loads := loads st'; objects := objects st';
              QDrantConfig_cache := QDrantConfig_cache st';
              MilvusConfig_cache := MilvusConfig_cache st';
              MongoDBConfig_cache := MongoDBConfig_cache st';
              PineconeConfig_cache := PineconeConfig_cache st';
              Settings_cache := Some self |})
      | (Raised e, st') => (Raised e, st')
      end
  end.

(** Reading and replacing the instance behind a reference.  Every reference
    the program holds comes from [Settings_new]; a reference to nothing has
    no counterpart in Python and is answered with [TypeError]. *)
Definition deref (self : nat) : Cfg SettingsObject := fun st =>
  match objects st !! self with
  | Some obj => (Returned obj, st)
  | None => (Raised TypeError, st)
  end.

Definition store (self : nat) (obj : SettingsObject) : Cfg unit := fun st =>
  (Returned tt,
   {| loads := loads st; objects := <[self := obj]> (objects st);
      QDrantConfig_cache := QDrantConfig_cache st;
      MilvusConfig_cache := MilvusConfig_cache st;
      MongoDBConfig_cache := MongoDBConfig_cache st;
      PineconeConfig_cache := PineconeConfig_cache st;
      Settings_cache := Settings_cache st |}).

(** The four properties of [Settings]: [hasattr], else load and [setattr],
    then [getattr]. *)
Definition qdrant_database_config (self : nat) : Cfg QDrantConfig :=
  obj ← deref self;
  match _qdrant_database_config obj with
  | Some c => mret c
  | None =>
      c ← QDrantConfig_get_settings;
      store self
        {| streamlit_server_port := streamlit_server_port obj;
           streamlit_server_address := streamlit_server_address obj;
           _qdrant_database_config := Some c;
           _milvus_database_config := _milvus_database_config obj;
           _mongodb_database_config := _mongodb_database_config obj;
           _pinecone_database_config := _pinecone_database_config obj |};;
      mret c
  end.

Definition milvus_database_config (self : nat) : Cfg MilvusConfig :=
  obj ← deref self;
  match _milvus_database_config obj with
  | Some c => mret c
  | None =>
      c ← MilvusConfig_get_settings;
      store self
        {| streamlit_server_port := streamlit_server_port obj;
           streamlit_server_address := streamlit_server_address obj;
           _qdrant_database_config := _qdrant_database_config obj;
           _milvus_database_config := Some c;
           _mongodb_database_config := _mongodb_database_config obj;
           _pinecone_database_config := _pinecone_database_config obj |};;
      mret c
  end.

Definition mongodb_database_config (self : nat) : Cfg MongoDBConfig :=
  obj ← deref self;
  match _mongodb_database_config obj with
  | Some c => mret c
  | None =>
      c ← MongoDBConfig_get_settings;
      store self
        {| streamlit_server_port := streamlit_server_port obj;
           streamlit_server_address := streamlit_server_address obj;
           _qdrant_database_config := _qdrant_database_config obj;
           _milvus_database_config := _milvus_database_config obj;
           _mongodb_database_config := Some c;
           _pinecone_database_config := _pinecone_database_config obj |};;
      mret c
  end.

Definition pinecone_database_config (self : nat) : Cfg PineconeConfig :=
  obj ← deref self;
  match _pinecone_database_config obj with
  | Some c => mret c
  | None =>
      c ← PineconeConfig_get_settings;
      store self
        {| streamlit_server_port := streamlit_server_port obj;
           streamlit_server_address := streamlit_server_address obj;
           _qdrant_database_config := _qdrant_database_config obj;
           _milvus_database_config := _milvus_database_config obj;
           _mongodb_database_config := _mongodb_database_config obj;
           _pinecone_database_config := Some c |};;
      mret c
  end.

(** The head of [interface.py]: the settings and the four module-level names
    bound from them, in the order of the source.  The record is the
    configuration the adapter runs with. *)
Definition module_settings : Cfg Settings :=
  settings ← get_settings;
  pinecone_settings ← pinecone_database_config settings;
  milvus_settings ← milvus_database_config settings;
  mongo_settings ← mongodb_database_config settings;
  qdrant_settings ← qdrant_database_config settings;
  mret (Build_Settings qdrant_settings milvus_settings mongo_settings pinecone_settings).

(** What can happen to the configuration state of a process, one operation
    at a time. *)
Inductive step (st : ConfigState) : ConfigState -> Prop :=
| step_Settings_new : step st (Settings_new st).2
| step_get_settings : step st (get_settings st).2
| step_QDrantConfig : step st (QDrantConfig_get_settings st).2
| step_MilvusConfig : step st (MilvusConfig_get_settings st).2
| step_MongoDBConfig : step st (MongoDBConfig_get_settings st).2
| step_PineconeConfig : step st (PineconeConfig_get_settings st).2
| step_qdrant self : step st (qdrant_database_config self st).2
| step_milvus self : step st (milvus_database_config self st).2
| step_mongodb self : step st (mongodb_database_config self st).2
| step_pinecone self : step st (pinecone_database_config self st).2.

Definition later : ConfigState -> ConfigState -> Prop := rtc step.

End Loading.

(** How often the construction of a class came back with an instance. *)
Definition came_back (en : ConfigEntry) : bool :=
  match cfg_result en with
  | Returned _ => true
  | Raised _ => false
  end.

Definition constructed (class : string) (l : list ConfigEntry) : nat :=
  length (filter (fun en => call_name (cfg_call en) = class /\ came_back en = true) l).

(** What an instance holds in its attributes is still there. *)
Definition attributes_kept (obj obj' : SettingsObject) : Prop :=
  (forall c, _qdrant_database_config obj = Some c ->
             _qdrant_database_config obj' = Some c)
  /\ (forall c, _milvus_database_config obj = Some c ->
                _milvus_database_config obj' = Some c)
  /\ (forall c, _mongodb_database_config obj = Some c ->
                _mongodb_database_config obj' = Some c)
  /\ (forall c, _pinecone_database_config obj = Some c ->
                _pinecone_database_config obj' = Some c).

(** The caches and the log of loads agree: a class whose [get_settings] has
    nothing cached was never constructed successfully, one whose cache is
    filled exactly once. *)
Definition caches_match_loads (st : ConfigState) : Prop :=
  constructed "QDrantConfig" (loads st)
    = (if QDrantConfig_cache st is Some _ then 1 else 0)%nat
  /\ constructed "MilvusConfig" (loads st)
    = (if MilvusConfig_cache st is Some _ then 1 else 0)%nat
  /\ constructed "MongoDBConfig" (loads st)
    = (if MongoDBConfig_cache st is Some _ then 1 else 0)%nat
  /\ constructed "PineconeConfig" (loads st)
    = (if PineconeConfig_cache st is Some _ then 1 else 0)%nat.

(** The log of loads with the four class caches, and everything cached. *)
Definition registry (st : ConfigState) :=
  (loads st, QDrantConfig_cache st, MilvusConfig_cache st,
   MongoDBConfig_cache st, PineconeConfig_cache st).

Definition caches (st : ConfigState) :=
  (objects st, QDrantConfig_cache st, MilvusConfig_cache st,
   MongoDBConfig_cache st, PineconeConfig_cache st, Settings_cache st).

End Config.

(** The state a returning [Config.module_settings] leaves: the instance is
    cached and carries the four configurations. *)
Definition settled (cfg : Settings) (st : Config.ConfigState) : Prop :=
  exists self obj,
    Config.Settings_cache st = Some self
    /\ Config.objects st !! self = Some obj
    /\ Config._qdrant_database_config obj = Some (qdrant_database_config cfg)
    /\ Config._milvus_database_config obj = Some (milvus_database_config cfg)
    /\ Config._mongodb_database_config obj = Some (mongodb_database_config cfg)
    /\ Config._pinecone_database_config obj = Some (pinecone_database_config cfg).

(** * The Streamlit script ([interface.py], from "Streamlit Interface" on)

    Streamlit runs the module from top to bottom on every interaction, with
    the session state kept between runs.  What the script asks of Streamlit,
    of the file system and of Python's formatting of dynamic values is a
    second family of logged calls answered by an arbitrary environment; the
    adapter operations run on the adapter state inside the session. *)

(** A [pathlib.Path], by its components. *)
Definition Path : Type := list string.

(** [path.name] *)
Definition Path_name (path : Path) : string := default "" (last path).

(** [Path(dir) / name] *)
Definition Path_join (dir : Path) (name : string) : Path := dir ++ [name].

Definition Bytes : Type := list Byte.byte.

(** The newline of the string literals. *)
Definition nl : string := String (Ascii.ascii_of_nat 10) "".

Section Script.

Context {float : Type}.

Inductive IoCall : Type -> Type :=
| st_title (body : string) : IoCall unit
| st_file_uploader (label : string) (type : list string) : IoCall (option Bytes)
| st_success (body : string) : IoCall unit
| st_selectbox (label : string) (options : list string) : IoCall string
| st_button (label : string) : IoCall bool
| st_text_input (label : string) : IoCall string
| st_write (body : string) : IoCall unit
| st_warning (body : string) : IoCall unit
| TemporaryDirectory_enter : IoCall Path
| TemporaryDirectory_exit (tmpdir : Path) : IoCall unit
| token_urlsafe (nbytes : Z) : IoCall string
| open_ (path : Path) (mode : string) : IoCall unit
| file_write (path : Path) (data : Bytes) : IoCall unit
| file_read (path : Path) : IoCall string
| file_close (path : Path) : IoCall unit
| ZipFile_enter (path : Path) (mode : string) : IoCall unit
| ZipFile_extractall (path target : Path) : IoCall unit
| ZipFile_exit (path : Path) : IoCall unit
| Path_glob (dir : Path) (pattern : string) : IoCall (list Path)
| Path_is_dir (path : Path) : IoCall bool
| format_ (value : @Value float) (spec : string) : IoCall string
| getitem_slice (value : @Value float) (stop : Z) : IoCall (@Value float).

Record IoEntry := Io {
  io_type : Type;
  io_call : IoCall io_type;
  io_result : Outcome io_type
}.
Arguments Io {io_type} io_call io_result.

(** The session of one browser tab: the adapter state (with
    [st.session_state.connections]), [st.session_state.docs] ([None] while
    the key is absent), the list bound to the local name [docs] while an
    upload is read, and what was asked of the environment. *)
Record Session := {
  adapter : @State float;
  session_docs : option (list (string * string));
  local_docs : list (string * string);
  io_log : list IoEntry
}.

Definition new_session : Session :=
  {| adapter := fresh_session; session_docs := None; local_docs := [];
     io_log := [] |}.

Variable oracle : forall R : Type, list (@LogEntry float) -> @Call float R -> Outcome R.
Variable settings : Settings.
Variable io_oracle : forall R : Type, list IoEntry -> IoCall R -> Outcome R.

Definition Script (A : Type) : Type := StateExc Session A.

Definition io {R} (c : IoCall R) : Script R := fun s =>
  let r := io_oracle R (io_log s) c in
  (r, {| adapter := adapter s; session_docs := session_docs s;
         local_docs := local_docs s; io_log := io_log s ++ [Io c r] |}).

(** An adapter operation, run on the adapter state of the session. *)
Definition sdk {A} (m : M A) : Script A := fun s =>
  let '(o, a) := m (adapter s) in
  (o, {| adapter := a; session_docs := session_docs s;
         local_docs := local_docs s; io_log := io_log s |}).

(** [with enter as a: body], for context managers that do not swallow
    exceptions: the exit runs however the body ends, and an exception of the
    exit replaces the one of the body. *)
Definition with_ {A B} (enter : Script A) (exit : A -> Script unit)
    (body : A -> Script B) : Script B :=
  a ← enter;
  fun s =>
    match body a s with
    | (Returned b, s1) =>
        match exit a s1 with
        | (Returned _, s2) => (Returned b, s2)
        | (Raised e, s2) => (Raised e, s2)
        end
    | (Raised e, s1) =>
        match exit a s1 with
        | (Returned _, s2) => (Raised e, s2)
        | (Raised e', s2) => (Raised e', s2)
        end
    end.

(** [try: body / except Exception: pass]: what is not an [Exception] passes
    through. *)
Definition try_pass (body : Script unit) : Script unit := fun s =>
  match body s with
  | (Returned _, s1) => (Returned tt, s1)
  | (Raised e, s1) => if is_Exception e then (Returned tt, s1) else (Raised e, s1)
  end.

(** [for x in xs: body] *)
Fixpoint for_ {A} (xs : list A) (body : A -> Script unit) : Script unit :=
  match xs with
  | [] => mret tt
  | x :: rest => body x;; for_ rest body
  end.

(** [if "docs" not in st.session_state: st.session_state.docs = []] *)
Definition init_docs : Script unit := fun s =>
  (Returned tt,
   {| adapter := adapter s;
      session_docs := Some (default [] (session_docs s));
      local_docs := local_docs s; io_log := io_log s |}).

(** [st.session_state.docs] *)
Definition get_docs : Script (list (string * string)) := fun s =>
  (Returned (default [] (session_docs s)), s).

(** [st.session_state.docs = docs] *)
Definition set_docs (docs : list (string * string)) : Script unit := fun s =>
  (Returned tt,
   {| adapter := adapter s; session_docs := Some docs;
      local_docs := local_docs s; io_log := io_log s |}).

(** [docs = []], [docs.append(doc)] and [docs] for the local list *)
Definition new_local_docs : Script unit := fun s =>
  (Returned tt,
   {| adapter := adapter s; session_docs := session_docs s;
      local_docs := []; io_log := io_log s |}).

Definition append_local_docs (doc : string * string) : Script unit := fun s =>
  (Returned tt,
   {| adapter := adapter s; session_docs := session_docs s;
      local_docs := local_docs s ++ [doc]; io_log := io_log s |}).

Definition get_local_docs : Script (list (string * string)) := fun s =>
  (Returned (local_docs s), s).

(** The [try] statement of the upload loop: read one extracted file as text
    and append it under its file name. *)
Definition read_document (path : Path) : Script unit :=
  try_pass
    (with_ (io (open_ path "r")) (fun _ => io (file_close path))
       (fun _ =>
          text ← io (file_read path);
          append_local_docs (Path_name path, text))).

(** The body of the upload loop: directories are passed over. *)
Definition read_if_file (path : Path) : Script unit :=
  is_dir ← io (Path_is_dir path);
  if (is_dir : bool) then (mret tt : Script unit) else read_document path.

(** The body of [if uploaded_file:] up to the end of the outer [with]. *)
Definition upload_documents (data : Bytes) : Script unit :=
  with_ (io TemporaryDirectory_enter) (fun tmpdir => io (TemporaryDirectory_exit tmpdir))
    (fun tmpdir =>
       token ← io (token_urlsafe 16);
       let zip_path := Path_join tmpdir (token +:+ ".zip") in
       with_ (io (open_ zip_path "wb")) (fun _ => io (file_close zip_path))
         (fun _ => io (file_write zip_path data));;
       with_ (io (ZipFile_enter zip_path "r")) (fun _ => io (ZipFile_exit zip_path))
         (fun _ =>
            io (ZipFile_extractall zip_path tmpdir);;
            new_local_docs;;
            paths ← io (Path_glob tmpdir "**/*.*");
            for_ paths read_if_file;;
            docs ← get_local_docs;
            set_docs docs)).

(** The "Indexing button" block.  A [connection] that is [None] matches no
    [isinstance] test of [index_documents], which then does nothing. *)
Definition index_button (connection : option Handle) : Script unit :=
  docs ← get_docs;
  if bool_decide (docs = []) then (mret tt : Script unit)
  else
    clicked ← io (st_button "Index Documents");
    if (clicked : bool) then
      docs ← get_docs;
      match connection with
      | Some h => sdk (index_documents oracle settings h docs)
      | None => (mret tt : Script unit)
      end;;
      docs ← get_docs;
      io (st_success ("Indexed " +:+ pretty (length docs)
                        +:+ " documents successfully!"))
    else (mret tt : Script unit).

(** The two [st.write] of one result. *)
Definition write_result (result : @SearchResult float) : Script unit :=
  let '(title, text, score) := result in
  score_3f ← io (format_ score ".3f");
  title_str ← io (format_ title "");
  io (st_write ("**Score:** " +:+ score_3f +:+ " — **Title:** " +:+ title_str));;
  excerpt ← io (getitem_slice text 200);
  excerpt_str ← io (format_ excerpt "");
  io (st_write ("**Content:** " +:+ nl +:+ "```txt" +:+ nl +:+ excerpt_str
                  +:+ "..." +:+ nl +:+ "```")).

(** The "Search input" block.  With a [connection] that is [None],
    [search_documents] returns [None], and iterating over it raises. *)
Definition search_button (connection : option Handle) : Script unit :=
  search_query ← io (st_text_input "Search the indexed documents:");
  clicked ← io (st_button "Search");
  if (clicked : bool) then
    if bool_decide (search_query = "") then
      io (st_warning "Please enter a search query first!")
    else
      results ← match connection with
                | Some h =>
                    sdk (search_documents oracle settings h search_query default_top_k)
                | None => fun s => (Raised TypeError, s)
                end;
      for_ results write_result
  else (mret tt : Script unit).

(** One run of the script. *)
Definition script : Script unit :=
  io (st_title "Unified Vector DB Interface");;
  uploaded_file ← io (st_file_uploader "Upload a ZIP file containing text documents"
                        ["zip"]);
  init_docs;;
  match uploaded_file with
  | Some data =>
      upload_documents data;;
      docs ← get_docs;
      io (st_success ("Uploaded " +:+ pretty (length docs) +:+ " documents."))
  | None => (mret tt : Script unit)
  end;;
  db_choice ← io (st_selectbox "Select Vector Database:"
                    ["Milvus"; "Pinecone"; "MongoDB"; "QDrant"]);
  connection ← sdk (get_connection oracle settings db_choice);
  index_button connection;;
  search_button connection.

(** ** Observations on a run of the script *)

(** The documents the reads of a run brought in: one per read that came back,
    under the name of its file. *)
Definition read_in (en : IoEntry) : option (string * string) :=
  match io_call en in IoCall R return Outcome R -> option (string * string) with
  | file_read path => fun r =>
      match r with
      | Returned text => Some (Path_name path, text)
      | Raised _ => None
      end
  | _ => fun _ => None
  end (io_result en).

Definition documents_read (l : list IoEntry) : list (string * string) :=
  omap read_in l.

(** The temporary directory a call created, and the one a call removed. *)
Definition created (en : IoEntry) : option Path :=
  match io_call en in IoCall R return Outcome R -> option Path with
  | TemporaryDirectory_enter => fun r =>
      match r with
      | Returned tmpdir => Some tmpdir
      | Raised _ => None
      end
  | _ => fun _ => None
  end (io_result en).

Definition removed (en : IoEntry) : option Path :=
  match io_call en with
  | TemporaryDirectory_exit tmpdir => Some tmpdir
  | _ => None
  end.

(** The exceptions the calls of a run raised. *)
Definition io_raised (en : IoEntry) : option PyError :=
  match io_result en with
  | Returned _ => None
  | Raised e => Some e
  end.

Definition exceptions_raised (l : list IoEntry) : list PyError := omap io_raised l.

Definition io_came_back (en : IoEntry) : bool :=
  match io_result en with
  | Returned _ => true
  | Raised _ => false
  end.

(** The entry points asked, by name. *)
Definition io_name {R} (c : IoCall R) : string :=
  match c with
  | st_title _ => "st.title"
  | st_file_uploader _ _ => "st.file_uploader"
  | st_success _ => "st.success"
  | st_selectbox _ _ => "st.selectbox"
  | st_button _ => "st.button"
  | st_text_input _ => "st.text_input"
  | st_write _ => "st.write"
  | st_warning _ => "st.warning"
  | TemporaryDirectory_enter => "TemporaryDirectory"
  | TemporaryDirectory_exit _ => "TemporaryDirectory.cleanup"
  | token_urlsafe _ => "token_urlsafe"
  | open_ _ _ => "open"
  | file_write _ _ => "write"
  | file_read _ => "read"
  | file_close _ => "close"
  | ZipFile_enter _ _ => "ZipFile"
  | ZipFile_extractall _ _ => "extractall"
  | ZipFile_exit _ => "ZipFile.close"
  | Path_glob _ _ => "glob"
  | Path_is_dir _ => "is_dir"
  | format_ _ _ => "format"
  | getitem_slice _ _ => "slice"
  end.

Definition io_names (l : list IoEntry) : list string :=
  (fun en => io_name (io_call en)) <$> l.

(** The messages written with [st.write], [st.success], [st.warning]. *)
Definition shown (en : IoEntry) : option string :=
  match io_call en with
  | st_write body => Some body
  | st_success body => Some body
  | st_warning body => Some body
  | _ => None
  end.

Definition messages (l : list IoEntry) : list string := omap shown l.

(** The limits the query calls of an adapter log asked for. *)
Definition asked_limits (l : list (@LogEntry float)) : list (@Value float) :=
  omap (fun en => asked_limit (ev_call en)) l.

(** Script code that only talks to the user and the file system: it leaves
    the adapter and the documents of the session alone. *)
Definition quiet {A} (m : Script A) : Prop :=
  forall s, adapter (m s).2 = adapter s
            /\ session_docs (m s).2 = session_docs s
            /\ exists delta, io_log (m s).2 = io_log s ++ delta.

End Script.

Arguments Io {float io_type} io_call io_result.

(** ** A concrete user and file system

    An executable environment for the script: what the user does in one run
    is an [Interaction]; the uploaded archive holds the [files], which
    [glob] finds after the archive itself. *)

Module DemoScript.

Inductive FileKind :=
| Text (content : string)
| Binary
| Directory.

Record Interaction := {
  uploaded : option Bytes;
  corrupt : bool;
  files : list (Path * FileKind);
  choice : string;
  click_index : bool;
  query : string;
  click_search : bool
}.

Definition tmpdir : Path := ["tmp"; "tmpq1w2e3"].

Definition archive : Path := Path_join tmpdir "token.zip".

Definition on_disk (i : Interaction) : list (Path * FileKind) :=
  (archive, Binary) :: ((fun f => (tmpdir ++ f.1, f.2)) <$> files i).

Definition kind_of (i : Interaction) (path : Path) : option FileKind :=
  (fun found => found.2.2) <$> list_find (fun f => f.1 = path) (on_disk i).

Definition undecodable : PyError := BackendError "UnicodeDecodeError".
Definition bad_zip : PyError := BackendError "BadZipFile".

Definition format_value (value : @Value Z) (spec : string) : string :=
  match value with
  | VStr s => s
  | VInt n => pretty n
  | VFloat x => if decide (spec = ".3f") then pretty x +:+ ".000" else pretty x
  | _ => "?"
  end.

Definition io_oracle (i : Interaction) (R : Type) (l : list (@IoEntry Z))
    (c : IoCall R) : Outcome R :=
  match c in IoCall R return Outcome R with
  | st_title _ => Returned tt
  | st_file_uploader _ _ => Returned (uploaded i)
  | st_success _ => Returned tt
  | st_selectbox _ _ => Returned (choice i)
  | st_button label =>
      Returned (if decide (label = "Search") then click_search i else click_index i)
  | st_text_input _ => Returned (query i)
  | st_write _ => Returned tt
  | st_warning _ => Returned tt
  | TemporaryDirectory_enter => Returned tmpdir
  | TemporaryDirectory_exit _ => Returned tt
  | token_urlsafe _ => Returned "token"
  | open_ _ _ => Returned tt
  | file_write _ _ => Returned tt
  | file_read path =>
      match kind_of i path with
      | Some (Text content) => Returned content
      | _ => Raised undecodable
      end
  | file_close _ => Returned tt
  | ZipFile_enter _ _ => if corrupt i then Raised bad_zip else Returned tt
  | ZipFile_extractall _ _ => Returned tt
  | ZipFile_exit _ => Returned tt
  | Path_glob _ _ => Returned (fst <$> on_disk i)
  | Path_is_dir path =>
      Returned (match kind_of i path with Some Directory => true | _ => false end)
  | format_ value spec => Returned (format_value value spec)
  | getitem_slice value stop =>
      match value with
      | VStr s => Returned (VStr (String.substring 0 (Z.to_nat stop) s))
      | _ => Raised TypeError
      end
  end.

(** The user uploads an archive with two texts, a picture and a folder,
    picks Qdrant and clicks "Index Documents". *)
Definition upload_and_index : Interaction := {|
  uploaded := Some [];
  corrupt := false;
  files := [(["a.txt"], Text "cats are mammals");
            (["img"; "logo.png"], Binary);
            (["notes.d"], Directory);
            (["notes.d"; "b.txt"], Text "the stock market fell today")];
  choice := "QDrant";
  click_index := true;
  query := "";
  click_search := false
|}.

(** Then searches, with nothing new in the uploader. *)
Definition search_cats : Interaction := {|
  uploaded := None;
  corrupt := false;
  files := [];
  choice := "QDrant";
  click_index := false;
  query := "cats are mammals";
  click_search := true
|}.

(** Clicks "Search" with nothing typed. *)
Definition search_nothing : Interaction := {|
  uploaded := None;
  corrupt := false;
  files := [];
  choice := "QDrant";
  click_index := false;
  query := "";
  click_search := true
|}.

(** Uploads something that is not a zip archive. *)
Definition upload_garbage : Interaction := {|
  uploaded := Some [];
  corrupt := true;
  files := [];
  choice := "QDrant";
  click_index := false;
  query := "";
  click_search := false
|}.

Definition run (i : Interaction) : Script unit :=
  script Demo.store_oracle Demo.settings (io_oracle i).

End DemoScript.

(** ** Further runs

    Sessions that follow one another, a backend that answers with a hit
    without title, and two environments for the configuration: one in which
    every variable is set, one in which those of Qdrant are missing. *)

Module Scenes.

Import Demo.

Definition connected : @State Z := connect_milvus.2.

Definition indexed : @State Z :=
  (index_documents store_oracle settings milvus two_documents connected).2.

Definition searched : @State Z :=
  (search_documents store_oracle settings milvus "cats are mammals" 3 indexed).2.

Definition second_qdrant : Handle := {| kind := QdrantClient; oid := 1 |}.

Definition connect_qdrant_later :=
  get_connection store_oracle settings "QDrant" searched.

Definition connect_pinecone := get_connection store_oracle settings "Pinecone" start.

Definition index_pinecone :=
  index_documents store_oracle settings pinecone two_documents start.

Definition untitled_hit : @QueryResponse Z :=
  {| metadata := VDict [("name", VStr "b.txt")];
     document := "the stock market fell today";
     score := 1 |}.

Definition ragged_oracle (R : Type) (l : Log) (c : Call R) : Outcome R :=
  match c in Call R return Outcome R -> Outcome R with
  | Qdrant_query _ _ _ _ => fun _ => Returned [canned_hit; untitled_hit; canned_hit]
  | _ => fun answer => answer
  end (store_oracle R l c).

Definition search_ragged :=
  search_documents ragged_oracle settings qdrant "cats" 3 start.

Definition ragged_answer : @LogEntry Z :=
  Entry (Qdrant_query qdrant "docs" "cats" 3)
        (Returned [canned_hit; untitled_hit; canned_hit]).

(** The Milvus server is unreachable when the collection is first created,
    and reachable afterwards. *)
Definition flaky_oracle (R : Type) (l : Log) (c : Call R) : Outcome R :=
  match c in Call R return Outcome R -> Outcome R with
  | Milvus_create_collection _ _ _ => fun answer =>
      if decide ("create_collection" ∈ call_names l) then answer
      else Raised unreachable
  | _ => fun answer => answer
  end (store_oracle R l c).

Definition connect_flaky := get_connection flaky_oracle settings "Milvus" start.

Definition connect_flaky_again :=
  get_connection flaky_oracle settings "Milvus" connect_flaky.2.

Definition second_milvus : Handle := {| kind := MilvusClient; oid := 1 |}.

(** Backends that keep what they are given and answer a query with the
    records of the place asked that are stored under the key asked, oldest
    first and no more than the limit. *)
Definition found (l : Log) (p : Place) (k : Key) (limit : Z) : list Stored :=
  take (Z.to_nat limit) (matching p k (stored l)).










(** The configuration: every variable is set. *)
Definition complete (R : Type) (l : list Config.ConfigEntry)
    (c : Config.ConfigCall R) : Outcome R :=
  match c in Config.ConfigCall R return Outcome R with
  | Config.QDrantConfig_init => Returned (qdrant_database_config settings)
  | Config.MilvusConfig_init => Returned (milvus_database_config settings)
  | Config.MongoDBConfig_init => Returned (mongodb_database_config settings)
  | Config.PineconeConfig_init => Returned (pinecone_database_config settings)
  | Config.Settings_init => Returned (8501, "0.0.0.0")
  end.

(** The variables of Qdrant are missing: constructing [QDrantConfig] fails
    validation. *)
Definition missing : PyError :=
  BackendError "ValidationError: collection_name: Field required".

Definition without_qdrant (R : Type) (l : list Config.ConfigEntry)
    (c : Config.ConfigCall R) : Outcome R :=
  match c in Config.ConfigCall R return Outcome R -> Outcome R with
  | Config.QDrantConfig_init => fun _ => Raised missing
  | _ => fun answer => answer
  end (complete R l c).

Definition first_instance : Config.ConfigState :=
  (Config.get_settings complete Config.fresh_process).2.

Definition accessed : Config.ConfigState :=
  (Config.qdrant_database_config complete 0 first_instance).2.

Definition second_instance : Config.ConfigState :=
  (Config.Settings_new complete accessed).2.

Definition accessed_again : Config.ConfigState :=
  (Config.qdrant_database_config complete 1 second_instance).2.

Definition head_of_interface := Config.module_settings complete Config.fresh_process.

Definition head_later : Config.ConfigState :=
  (Config.qdrant_database_config complete 1
     (Config.Settings_new complete head_of_interface.2).2).2.

Definition bare_instance : Config.ConfigState :=
  (Config.get_settings without_qdrant Config.fresh_process).2.

Definition bare_object : Config.SettingsObject :=
  {| Config.streamlit_server_port := 8501;
     Config.streamlit_server_address := "0.0.0.0";
     Config._qdrant_database_config := None;
     Config._milvus_database_config := None;
     Config._mongodb_database_config := None;
     Config._pinecone_database_config := None |}.

(** The script, run three times in one session. *)
Definition first_run := DemoScript.run DemoScript.upload_and_index new_session.

Definition second_run := DemoScript.run DemoScript.search_cats first_run.2.

Definition third_run := DemoScript.run DemoScript.upload_garbage second_run.2.

End Scenes.

(** * Properties *)

Section Properties.

Context {float : Type}.
Variable oracle : forall R : Type, list (@LogEntry float) -> @Call float R -> Outcome R.
Variable settings : Settings.

(** Unfolding the three operations and the monadic plumbing. *)
Ltac unfold_get_connection := unfold get_connection.
Ltac unfold_index_documents := unfold index_documents.
Ltac unfold_search_documents := unfold search_documents.
Ltac unfold_perform := unfold perform.

Ltac unfold_plumbing :=
  unfold mbind, M_bind, mret, M_ret, perform, new_object,
    new_MilvusClient, new_Pinecone, new_MongoClient, new_QdrantClient,
    init_connections, get_connections, set_connection, lift, raise in *.

(** From here on the operations are read in the environment at hand. *)
Local Abbreviation get_connection := (get_connection oracle settings).
Local Abbreviation index_documents := (index_documents oracle settings).
Local Abbreviation search_documents := (search_documents oracle settings).
Local Abbreviation perform := (perform oracle).

Implicit Types (s : @State float) (h client connection : Handle)
  (documents : list (string * string)) (l delta : list (@LogEntry float)).

(** ** Running monadic code *)

Lemma run_bind {A B} (m : @M float A) (f : A -> @M float B) s :
  (m ≫= f) s =
  match m s with
  | (Returned a, s') => f a s'
  | (Raised e, s') => (Raised e, s')
  end.
Proof. reflexivity. Qed.

Lemma cache_mk l n (m : gmap string Handle) :
  cache {| log := l; next_oid := n; connections := Some m |} = m.
Proof. reflexivity. Qed.

Ltac unfold_ops :=
  unfold_plumbing;
  cbn [fst snd log next_oid connections negb] in *;
  rewrite ?cache_mk in *.

(** Case analysis on the answer of the next external call. *)
Ltac ask :=
  match goal with
  | |- context [oracle ?R ?l ?c] =>
      let r := fresh "r" in
      let Hr := fresh "Hr" in
      destruct (oracle R l c) as [r|r] eqn:Hr
  | |- context [negb ?b] => is_var b; destruct b
  end.

(** Run the code in the goal against every possible answer. *)
Ltac run := unfold_ops; repeat (ask; unfold_ops).

Lemma cache_Some s m : connections s = Some m -> cache s = m.
Proof. unfold cache. by intros ->. Qed.

(** A cached name is answered from the cache: no call, no allocation, and the
    session state is the one the call started from (the [connections] key
    exists once a name is cached). *)
Lemma get_connection_cached name s h :
  cache s !! name = Some h ->
  get_connection name s = (Returned (Some h), s).
Proof.
  destruct s as [l n [m|]]; [|done].
  rewrite cache_mk. intros Hm.
  unfold_get_connection. unfold_ops. by rewrite Hm.
Qed.

(** An uncached name that yields a handle ran one setup: one fresh client
    object was constructed, every setup call came back, and the handle was
    stored under the name. *)
Lemma get_connection_fresh name s h s1 :
  cache s !! name = None ->
  get_connection name s = (Returned (Some h), s1) ->
  exists setup,
    log s1 = log s ++ setup
    /\ oid h = next_oid s
    /\ constructions setup = [kind h]
    /\ (creations setup <= 1)%nat
    /\ forallb came_back setup = true
    /\ connections s1 = Some (<[name := h]> (cache s)).
Proof.
  intros Hc. unfold_get_connection. unfold_ops. rewrite Hc.
  repeat case_decide; run; try by intros [=].
  all: intros [= <- <-]; cbn [log oid kind connections].
  all: eexists; rewrite <- ?(assoc_L (++)); (split; [reflexivity|]).
  all: repeat split; auto.
Qed.

Lemma get_connection_stores name s h s1 :
  get_connection name s = (Returned (Some h), s1) ->
  cache s1 !! name = Some h.
Proof.
  destruct (cache s !! name) as [h0|] eqn:Hc.
  - rewrite (get_connection_cached _ _ _ Hc). by intros [= <- <-].
  - intros Hrun. destruct (get_connection_fresh _ _ _ _ Hc Hrun)
      as (setup & _ & _ & _ & _ & _ & Hs1).
    rewrite (cache_Some _ _ Hs1). apply lookup_insert_eq.
Qed.

(** A handle, once cached, is never replaced: whatever name is asked for
    next and however that call ends. *)
Lemma get_connection_keeps_handles name' name s h :
  cache s !! name = Some h ->
  cache (get_connection name' s).2 !! name = Some h.
Proof.
  intros Hh. destruct (cache s !! name') as [h'|] eqn:Hc.
  { by rewrite (get_connection_cached _ _ _ Hc). }
  assert (name <> name') as Hne by congruence.
  unfold_get_connection. unfold_ops. rewrite Hc.
  repeat case_decide; run.
  all: rewrite ?lookup_insert_ne; auto.
Qed.

(** The cache only ever holds the four backend names. *)
Lemma get_connection_keys name s :
  (forall k, is_Some (cache s !! k) -> k ∈ DATABASE_NAMES) ->
  forall k, is_Some (cache (get_connection name s).2 !! k) -> k ∈ DATABASE_NAMES.
Proof.
  intros Hinv k. destruct (cache s !! name) as [h'|] eqn:Hc.
  { rewrite (get_connection_cached _ _ _ Hc). apply Hinv. }
  unfold_get_connection. unfold_ops. rewrite Hc.
  repeat case_decide; run; try apply Hinv.
  all: destruct (decide (k = name)) as [->|Hne];
    [ intros _; subst; unfold DATABASE_NAMES; repeat constructor
    | rewrite lookup_insert_ne by done; apply Hinv ].
Qed.

(** An uncached name, outcome by outcome. *)
Lemma get_connection_uncached name s :
  cache s !! name = None ->
  match get_connection name s with
  | (Returned (Some h), s1) =>
      client_class name = Some (kind h)
      /\ oid h = next_oid s
      /\ next_oid s1 = S (next_oid s)
      /\ (exists index_exists,
            log s1 = log s ++ setup_calls settings name h index_exists)
      /\ cache s1 = <[name := h]> (cache s)
  | (Returned None, s1) =>
      client_class name = None /\ log s1 = log s /\ cache s1 = cache s
  | (Raised e, s1) =>
      cache s1 = cache s
      /\ exists pre R (c : Call R),
           log s1 = log s ++ pre ++ [Entry c (Raised e)]
           /\ forallb came_back pre = true
  end.
Proof.
  intros Hc. unfold_get_connection. unfold_ops. rewrite Hc.
  unfold client_class, setup_calls.
  repeat case_decide; run; cbn [log oid kind next_oid connections].
  all: try (split; [done|];
            rewrite <- ?(assoc_L (++));
            first [ by eexists [], _, _
                  | by eexists [_], _, _
                  | by eexists [_; _], _, _ ]).
  all: try done.
  all: repeat match goal with u : () |- _ => destruct u end.
  all: (split; [done|]); (split; [done|]); (split; [done|]); (split; [|done]).
  all: rewrite <- ?(assoc_L (++)); first [by exists true|by exists false].
Qed.

(** C1 (as amended).  Within one session, once [get_connection] has
    returned a handle for a name, a second call for that name returns the
    very same handle (same class, same object identity) and changes
    nothing: no call, no allocation, the same cache.  A returning first call
    either found the name cached and did nothing, or ran the setup of that
    backend exactly once, call by call as [setup_calls] lists it (one fresh
    client of the class of the backend, the collection or index created
    where the backend needs one), and stored the handle.  A call that raises
    stores nothing: the name is still not cached, so the next call for it
    runs the setup again from the constructor.  Setup is thus run once per
    successful connection, not once per session. *)
Theorem get_connection_twice_same_handle name s :
  match get_connection name s with
  | (Returned (Some h), s1) =>
      get_connection name s1 = (Returned (Some h), s1)
      /\ match cache s !! name with
         | Some h0 => h = h0 /\ s1 = s
         | None =>
             client_class name = Some (kind h)
             /\ oid h = next_oid s
             /\ next_oid s1 = S (next_oid s)
             /\ (exists index_exists,
                   log s1 = log s ++ setup_calls settings name h index_exists)
             /\ cache s1 = <[name := h]> (cache s)
         end
  | (Returned None, s1) =>
      client_class name = None /\ log s1 = log s /\ cache s1 = cache s
  | (Raised e, s1) =>
      cache s !! name = None
      /\ cache s1 = cache s
      /\ exists pre R (c : Call R),
           log s1 = log s ++ pre ++ [Entry c (Raised e)]
           /\ forallb came_back pre = true
  end.
Proof.
  destruct (cache s !! name) as [h0|] eqn:Hc.
  { rewrite (get_connection_cached _ _ _ Hc).
    split; [by apply get_connection_cached|done]. }
  pose proof (get_connection_uncached name s Hc) as Hrun.
  destruct (get_connection name s) as [[[h|]|e] s1] eqn:Hget; [|done|done].
  split; [|done].
  apply get_connection_cached. by eapply get_connection_stores.
Qed.

(** C9 (first part of the proof below: the four names; second: any other
    name).  For a name of [DATABASE_NAMES], [get_connection] never falls
    through to [None]: it returns a handle that is by then stored in the
    cache under that name, unless a setup call raised, in which case that
    exception is the outcome.  For any other name, in a session whose cache
    holds only backend names (every session [get_connection] builds), it
    returns [None], makes no call and leaves the cache as it was. *)
Theorem get_connection_never_falls_through name s :
  (name ∈ DATABASE_NAMES ->
     match get_connection name s with
     | (Returned (Some h), s') => cache s' !! name = Some h
     | (Returned None, _) => False
     | (Raised e, s') =>
         exists pre R (c : Call R), log s' = log s ++ pre ++ [Entry c (Raised e)]
     end)
  /\ (name ∉ DATABASE_NAMES ->
      (forall k, is_Some (cache s !! k) -> k ∈ DATABASE_NAMES) ->
      get_connection name s = (Returned None, (init_connections s).2)
      /\ cache (get_connection name s).2 = cache s
      /\ log (get_connection name s).2 = log s).
Proof.
  split.
  - intros Hin. destruct (get_connection name s) as [[[h|]|e] s'] eqn:Hrun.
    + by eapply get_connection_stores.
    + revert Hrun. destruct (cache s !! name) as [h0|] eqn:Hc.
      { by rewrite (get_connection_cached _ _ _ Hc). }
      unfold_get_connection. unfold_ops. rewrite Hc.
      unfold DATABASE_NAMES in Hin.
      repeat case_decide; run; try by intros [=].
      repeat (apply elem_of_cons in Hin as [->|Hin]; [done|]).
      by apply elem_of_nil in Hin.
    + revert Hrun. destruct (cache s !! name) as [h0|] eqn:Hc.
      { by rewrite (get_connection_cached _ _ _ Hc). }
      unfold_get_connection. unfold_ops. rewrite Hc.
      repeat case_decide; run; try by intros [=].
      all: intros [= <- <-]; cbn [log]; rewrite <- ?(assoc_L (++)).
      all: first
        [ by eexists [], _, _
        | by eexists [_], _, _
        | by eexists [_; _], _, _ ].
  - intros Hout Hinv.
    assert (cache s !! name = None) as Hc.
    { destruct (cache s !! name) eqn:Hc; [|done].
      destruct Hout. apply Hinv. by rewrite Hc. }
    assert (get_connection name s = (Returned None, (init_connections s).2)) as ->.
    { unfold_get_connection. unfold_ops. rewrite Hc.
      unfold DATABASE_NAMES in Hout.
      repeat case_decide; try reflexivity; destruct Hout; subst; repeat constructor. }
    done.
Qed.

(** ** Exceptions of the collaborators *)

Lemma Propagated_returned {A} (a : A) delta :
  Propagated (Returned a) delta -> forallb came_back delta = true.
Proof. by intros [Hok|pre R c e _ _ [=]]. Qed.

Lemma Propagated_raised {A B} e delta :
  Propagated (@Raised A e) delta -> Propagated (@Raised B e) delta.
Proof.
  intros [Hok|pre R c e' Hd Hpre [= ->]]; [by left|by eright].
Qed.

Lemma propagates_ret {A} (a : A) : propagates (float:=float) (mret a).
Proof. intros s. exists []. split; [by rewrite app_nil_r|by left]. Qed.

Lemma propagates_lift {A} (o : Outcome A) : propagates (float:=float) (lift o).
Proof. intros s. exists []. split; [by rewrite app_nil_r|by left]. Qed.

Lemma propagates_silent {A} (m : @M float A) :
  (forall s, log (m s).2 = log s) -> propagates m.
Proof.
  intros Hm s. exists []. split; [by rewrite app_nil_r, Hm|by left].
Qed.

Lemma propagates_perform {R} (c : Call R) : propagates (perform c).
Proof.
  intros s. unfold_perform. cbn [fst snd log].
  exists [Entry c (oracle R (log s) c)]. split; [done|].
  destruct (oracle R (log s) c) as [r|e] eqn:Hr.
  - by left.
  - by eright; [exact (eq_refl ([] ++ [_]))| |].
Qed.

Lemma propagates_bind {A B} (m : @M float A) (f : A -> @M float B) :
  propagates m -> (forall a, propagates (f a)) -> propagates (m ≫= f).
Proof.
  intros Hm Hf s. rewrite run_bind.
  destruct (Hm s) as (d1 & Hlog1 & Hp1).
  destruct (m s) as [[a|e] s1]; cbn in *;
    [|exists d1; split; [done|by apply (Propagated_raised (A:=A))]].
  apply Propagated_returned in Hp1.
  destruct (Hf a s1) as (d2 & Hlog2 & Hp2).
  exists (d1 ++ d2). split.
  { by rewrite Hlog2, Hlog1, (assoc_L (++)). }
  destruct Hp2 as [Hok|pre R c e -> Hpre ->].
  - left. rewrite forallb_app. by rewrite Hp1, Hok.
  - eright; [by rewrite (assoc_L (++))| |done].
    rewrite forallb_app. by rewrite Hp1, Hpre.
Qed.

Lemma propagates_mapM {A B} (f : A -> @M float B) (xs : list A) :
  (forall x, propagates (f x)) -> propagates (mapM f xs).
Proof.
  intros Hf. induction xs as [|x xs IH]; cbn.
  - apply propagates_ret.
  - apply propagates_bind; [done|]. intros y.
    apply propagates_bind; [done|]. intros ys. apply propagates_ret.
Qed.

Create HintDb propagate.
#[local] Hint Resolve propagates_ret propagates_lift propagates_perform
  propagates_mapM : propagate.

Ltac propagate :=
  repeat first
    [ apply propagates_bind; [|intros ?]
    | apply propagates_mapM; intros ?
    | solve [auto with propagate]
    | solve [apply propagates_silent; intros ?; reflexivity]
    | case_match
    | case_decide ].

Lemma get_connection_propagates name : propagates (get_connection name).
Proof.
  unfold_get_connection.
  unfold new_MilvusClient, new_Pinecone, new_MongoClient, new_QdrantClient.
  propagate.
Qed.

Lemma index_documents_propagates h documents :
  propagates (index_documents h documents).
Proof. unfold_index_documents. unfold pinecone_record. propagate. Qed.

Lemma search_documents_propagates h query top_k :
  propagates (search_documents h query top_k).
Proof. unfold_search_documents. propagate. Qed.

Lemma stateless_ret {A} (a : A) : stateless (float:=float) (mret a).
Proof. done. Qed.

Lemma stateless_lift {A} (o : Outcome A) : stateless (float:=float) (lift o).
Proof. done. Qed.

Lemma stateless_perform {R} (c : Call R) : stateless (perform c).
Proof. done. Qed.

Lemma stateless_bind {A B} (m : @M float A) (f : A -> @M float B) :
  stateless m -> (forall a, stateless (f a)) -> stateless (m ≫= f).
Proof.
  intros Hm Hf s. rewrite run_bind. destruct (Hm s) as [Hc Hn].
  destruct (m s) as [[a|e] s1]; cbn in *; [|done].
  destruct (Hf a s1) as [Hc' Hn']. by rewrite Hc', Hn'.
Qed.

Lemma stateless_mapM {A B} (f : A -> @M float B) (xs : list A) :
  (forall x, stateless (f x)) -> stateless (mapM f xs).
Proof.
  intros Hf. induction xs as [|x xs IH]; cbn; [done|].
  apply stateless_bind; [done|]. intros y.
  by apply stateless_bind.
Qed.

#[local] Hint Resolve stateless_ret stateless_lift stateless_perform
  stateless_mapM : propagate.

Ltac frame :=
  repeat first
    [ apply stateless_bind; [|intros ?]
    | apply stateless_mapM; intros ?
    | solve [auto with propagate]
    | case_match ].

Lemma index_documents_stateless h documents :
  stateless (index_documents h documents).
Proof. unfold_index_documents. unfold pinecone_record. frame. Qed.

Lemma search_documents_stateless h query top_k :
  stateless (search_documents h query top_k).
Proof. unfold_search_documents. frame. Qed.

(** A [get_connection] that raises has stored nothing. *)
Lemma get_connection_raise_keeps_cache name s e :
  (get_connection name s).1 = Raised e ->
  cache (get_connection name s).2 = cache s.
Proof.
  destruct (cache s !! name) as [h'|] eqn:Hc.
  { by rewrite (get_connection_cached _ _ _ Hc). }
  unfold_get_connection. unfold_ops. rewrite Hc.
  repeat case_decide; run; done.
Qed.

(** C6. In [get_connection], [index_documents] and [search_documents] alike,
    an exception raised by a collaborator's call is the outcome of the
    operation, and that call is the last one the operation makes: nothing is
    retried, undone or cleaned up after it, and every earlier call had come
    back.  A failed [get_connection] stores no handle; indexing and searching
    never touch the session state at all. *)
Theorem backend_errors_propagate :
  (forall name,
      propagates (get_connection name)
      /\ forall s e, (get_connection name s).1 = Raised e ->
                     cache (get_connection name s).2 = cache s)
  /\ (forall h documents,
        propagates (index_documents h documents)
        /\ stateless (index_documents h documents))
  /\ (forall h query top_k,
        propagates (search_documents h query top_k)
        /\ stateless (search_documents h query top_k)).
Proof.
  repeat split.
  - apply get_connection_propagates.
  - apply get_connection_raise_keeps_cache.
  - apply index_documents_propagates.
  - apply index_documents_stateless.
  - apply index_documents_stateless.
  - apply search_documents_propagates.
  - apply search_documents_stateless.
  - apply search_documents_stateless.
Qed.

(** ** Indexing *)

Lemma mapO_Forall2 {A B} (f : A -> Outcome B) xs ys :
  mapO f xs = Returned ys <-> Forall2 (fun x y => f x = Returned y) xs ys.
Proof.
  revert ys. induction xs as [|x xs IH]; intros ys; cbn.
  - split; [by intros [= <-]; constructor|by inversion 1].
  - destruct (f x) as [y|e] eqn:Hfx.
    + destruct (mapO f xs) as [ys'|e] eqn:Hrest.
      * split.
        -- intros [= <-]. constructor; [done|]. by apply IH.
        -- inversion 1 as [|? y' ? ys'' Hy Hys]; subst.
           apply IH in Hys. congruence.
      * split; [done|]. inversion 1 as [|? y' ? ys'' Hy Hys]; subst.
        by apply IH in Hys.
    + split; [done|]. inversion 1; congruence.
Qed.

Lemma mapO_length {A B} (f : A -> Outcome B) xs ys :
  mapO f xs = Returned ys -> length ys = length xs.
Proof. intros H%mapO_Forall2. symmetry. by eapply Forall2_length. Qed.

(** What a returning [index_documents] did on a Milvus client: three calls,
    the last one the single insert of the rows built from the vectors. *)
Lemma index_documents_milvus h documents s s' :
  kind h = MilvusClient ->
  index_documents h documents s = (Returned tt, s') ->
  exists vectors data,
    log s' = log s ++
      [Entry TextEmbedding_init (Returned tt);
       Entry (TextEmbedding_embed (snd <$> documents)) (Returned vectors);
       Entry (Milvus_insert h (milvus_collection_name (milvus_settings settings)) data)
             (Returned tt)]
    /\ oracle _ (log s ++ [Entry TextEmbedding_init (Returned tt)])
         (TextEmbedding_embed (snd <$> documents)) = Returned vectors
    /\ mapO (milvus_row vectors documents) (seq 0%nat (length vectors)) = Returned data.
Proof.
  intros Hk. unfold_index_documents. rewrite Hk. unfold_ops.
  ask; [destruct r|by intros [=]]. unfold_ops.
  ask; [|by intros [=]]. unfold_ops.
  destruct (mapO _ _) as [data|e] eqn:Hdata; [|by intros [=]].
  ask; [destruct r0|by intros [=]].
  intros [= <-]. cbn [log]. exists r, data. by rewrite <- !(assoc_L (++)).
Qed.

Lemma index_documents_mongo h documents s s' :
  kind h = MongoClient ->
  index_documents h documents s = (Returned tt, s') ->
  exists embeddings,
    log s' = log s ++
      [Entry TextEmbedding_init (Returned tt);
       Entry (TextEmbedding_embed (snd <$> documents)) (Returned embeddings);
       Entry (Mongo_insert_many h (mongo_db_name (mongo_settings settings))
                (mongo_collection_name (mongo_settings settings))
                (mongo_document <$> zip embeddings documents))
             (Returned tt)]
    /\ oracle _ (log s ++ [Entry TextEmbedding_init (Returned tt)])
         (TextEmbedding_embed (snd <$> documents)) = Returned embeddings.
Proof.
  intros Hk. unfold_index_documents. rewrite Hk. unfold_ops.
  ask; [destruct r|by intros [=]]. unfold_ops.
  ask; [|by intros [=]]. unfold_ops.
  ask; [destruct r0|by intros [=]].
  intros [= <-]. cbn [log]. exists r. by rewrite <- !(assoc_L (++)).
Qed.

(** Row [i] of the Milvus batch is built from vector [i] and document [i]. *)
Lemma milvus_rows_lookup (vectors : list (@Vec float)) documents data :
  mapO (milvus_row vectors documents) (seq 0%nat (length vectors)) = Returned data ->
  length data = length vectors
  /\ (length vectors <= length documents)%nat
  /\ forall i v doc,
       vectors !! i = Some v -> documents !! i = Some doc ->
       data !! i = Some (VDict [("id", VInt (Z.of_nat i));
                                ("vector", VArray v);
                                ("text", VStr doc.2);
                                ("title", VStr doc.1)]).
Proof.
  intros Hdata. pose proof (mapO_length _ _ _ Hdata) as Hlen.
  rewrite length_seq in Hlen. apply mapO_Forall2 in Hdata.
  split; [done|]. split.
  - destruct (decide (length vectors <= length documents)%nat) as [|Hgt]; [done|].
    assert (is_Some (data !! length documents)) as [row Hrow].
    { apply lookup_lt_is_Some. lia. }
    assert (seq 0%nat (length vectors) !! length documents = Some (length documents))
      as Hi by (apply lookup_seq; lia).
    pose proof (Forall2_lookup_lr _ _ _ _ _ _ Hdata Hi Hrow) as Hf.
    unfold milvus_row in Hf.
    rewrite (lookup_ge_None_2 documents (length documents)) in Hf by lia.
    by destruct (vectors !! length documents).
  - intros i v doc Hv Hdoc.
    assert (seq 0%nat (length vectors) !! i = Some i) as Hi.
    { apply lookup_seq. split; [done|]. by eapply lookup_lt_Some. }
    destruct (Forall2_lookup_l _ _ _ _ _ Hdata Hi) as (row & Hrow & Hf).
    unfold milvus_row in Hf. rewrite Hv, Hdoc in Hf. congruence.
Qed.

(** The rows of a Milvus batch can always be built when there are no more
    vectors than documents. *)
Lemma milvus_rows_total (vectors : list (@Vec float)) documents :
  (length vectors <= length documents)%nat ->
  exists data,
    mapO (milvus_row vectors documents) (seq 0%nat (length vectors)) = Returned data.
Proof.
  intros Hle.
  assert (forall positions,
             Forall (fun i => (i < length vectors)%nat) positions ->
             exists data, mapO (milvus_row vectors documents) positions = Returned data)
    as Hall.
  { induction 1 as [|i positions Hi _ [data IH]]; [by exists []|].
    destruct (lookup_lt_is_Some_2 vectors i Hi) as [v Hv].
    destruct (lookup_lt_is_Some_2 documents i) as [doc Hdoc]; [lia|].
    assert (exists row, milvus_row vectors documents i = Returned row)
      as [row Hrow] by (eexists; unfold milvus_row, Vec in *; by rewrite Hv, Hdoc).
    cbn [mapO]. rewrite Hrow, IH. by eexists. }
  apply Hall, Forall_forall. by intros i [_ Hi]%elem_of_seq.
Qed.

(** Indexing on Milvus or MongoDB returns whenever its collaborators do. *)
Lemma index_documents_returns h documents s :
  never_raises oracle ->
  embeds_each_text oracle ->
  kind h = MilvusClient \/ kind h = MongoClient ->
  exists s', index_documents h documents s = (Returned tt, s').
Proof.
  intros Hnever Hembed Hk. unfold_index_documents.
  destruct Hk as [-> | ->]; run.
  all: try match goal with
      | H : oracle _ _ _ = Raised _ |- _ => by destruct (Hnever _ _ _ _ H)
      end.
  all: repeat match goal with u : () |- _ => destruct u end.
  - destruct (milvus_rows_total r0 documents) as [data Hdata].
    { apply Hembed in Hr0. rewrite length_fmap in Hr0. lia. }
    rewrite Hdata in *. run.
    all: try match goal with
        | H : oracle _ _ _ = Raised _ |- _ => by destruct (Hnever _ _ _ _ H)
        end.
    destruct r. by eexists.
  - by eexists.
Qed.

(** C3. When indexing on a backend that needs external embeddings (Milvus,
    MongoDB) succeeds, the adapter asked the embedding model once, for the
    texts of the batch in input order, and wrote once: record [i] of the
    written batch carries vector [i] of the model's answer together with the
    text and the title of document [i], for every position of the batch.
    The embedding model is assumed to answer with one vector per text. *)
Theorem index_pairs_embeddings_with_documents h documents s s' :
  embeds_each_text oracle ->
  kind h = MilvusClient \/ kind h = MongoClient ->
  index_documents h documents s = (Returned tt, s') ->
  exists vectors records,
    length vectors = length documents
    /\ length records = length documents
    /\ log s' = log s ++
         [Entry TextEmbedding_init (Returned tt);
          Entry (TextEmbedding_embed (snd <$> documents)) (Returned vectors);
          match kind h with
          | MongoClient =>
              Entry (Mongo_insert_many h (mongo_db_name (mongo_settings settings))
                       (mongo_collection_name (mongo_settings settings)) records)
                    (Returned tt)
          | _ =>
              Entry (Milvus_insert h (milvus_collection_name (milvus_settings settings))
                       records)
                    (Returned tt)
          end]
    /\ forall i doc,
         documents !! i = Some doc ->
         exists v,
           vectors !! i = Some v
           /\ records !! i = Some
                match kind h with
                | MongoClient =>
                    VDict [("text", VStr doc.2); ("title", VStr doc.1);
                           ("embedding", tolist v)]
                | _ =>
                    VDict [("id", VInt (Z.of_nat i)); ("vector", VArray v);
                           ("text", VStr doc.2); ("title", VStr doc.1)]
                end.
Proof.
  intros Hembed [Hk|Hk] Hrun.
  - destruct (index_documents_milvus _ _ _ _ Hk Hrun)
      as (vectors & data & Hlog & Hvec & Hdata).
    apply Hembed in Hvec. rewrite length_fmap in Hvec.
    destruct (milvus_rows_lookup _ _ _ Hdata) as (Hlen & _ & Hrows).
    exists vectors, data. rewrite Hk. repeat split; [done|congruence|done|].
    intros i doc Hdoc.
    destruct (lookup_lt_is_Some_2 vectors i) as [v Hv].
    { rewrite Hvec. by eapply lookup_lt_Some. }
    exists v. split; [done|]. by apply Hrows.
  - destruct (index_documents_mongo _ _ _ _ Hk Hrun) as (vectors & Hlog & Hvec).
    apply Hembed in Hvec. rewrite length_fmap in Hvec.
    exists vectors, (mongo_document <$> zip vectors documents). rewrite Hk.
    repeat split; [done| |done|].
    { rewrite length_fmap, length_zip_with. lia. }
    intros i doc Hdoc.
    destruct (lookup_lt_is_Some_2 vectors i) as [v Hv].
    { rewrite Hvec. by eapply lookup_lt_Some. }
    exists v. split; [done|].
    rewrite list_lookup_fmap.
    assert (zip vectors documents !! i = Some (v, doc)) as ->; [|done].
    rewrite lookup_zip_with. by rewrite Hv, Hdoc.
Qed.

(** C2 (as amended).  The adapter has no special case for an empty batch:
    on [[]] every branch goes on to the write call of its backend.  If
    [index_documents] returns, every call it made came back, they are the
    preparatory calls of any batch followed by the write, and the write was
    made once, with an empty batch.  If it raises, then either one of its
    calls raised, all calls before that one came back and none of them
    wrote, and the outcome is that exception (the call that raised being a
    preparatory call or the write of the empty batch itself); or, on Milvus
    only, every call came back but the embedding model answered the empty
    list of texts with at least one vector, in which case building the
    rows raises [IndexError] and no write call is made. *)
Theorem index_empty_batch_writes_empty_batch h s :
  exists delta,
    log (index_documents h [] s).2 = log s ++ delta
    /\ match (index_documents h [] s).1 with
       | Returned _ =>
           forallb came_back delta = true
           /\ writes delta = [0%nat]
           /\ call_names delta =
               match kind h with
               | MilvusClient => ["TextEmbedding"; "embed"; "insert"]
               | PineconeClient => ["Index"; "upsert_records"]
               | MongoClient => ["TextEmbedding"; "embed"; "insert_many"]
               | QdrantClient => ["add"]
               end
       | Raised e =>
           (exists pre R (c : Call R),
               delta = pre ++ [Entry c (Raised e)]
               /\ forallb came_back pre = true
               /\ writes pre = []
               /\ (batch_size c = None \/ batch_size c = Some 0%nat))
           \/ (kind h = MilvusClient
               /\ e = IndexError
               /\ exists vector vectors,
                    delta = [Entry TextEmbedding_init (Returned tt);
                             Entry (TextEmbedding_embed [])
                                   (Returned (vector :: vectors))])
       end.
Proof.
  unfold_index_documents.
  destruct (kind h) eqn:Hk; cbn [mapM fmap list_fmap zip_with zip]; run.
  all: try match goal with
      | |- context [mapO _ (seq _ (length ?r))] =>
          destruct r; cbn [mapO seq length milvus_row lookup list_lookup]; run
      end.
  all: cbn [fst snd log]; rewrite <- ?(assoc_L (++)), ?zip_with_nil_r.
  all: repeat match goal with u : () |- _ => destruct u end.
  all: eexists; (split; [reflexivity|]).
  all: first
    [ by repeat split
    | left; first
        [ eexists [], _, _; cbn; by auto
        | eexists [_], _, _; cbn; by auto
        | eexists [_; _], _, _; cbn; by auto ]
    | right; split; [done|]; split; [done|]; by eexists _, _ ].
Qed.

(** ** Searching *)

(** What a returning [search_documents] did: its last call is the query, it
    asked for [top_k] hits, and the results are the tuples of the hits of
    the answer, hit by hit. *)
Lemma search_documents_returned h query top_k s results s' :
  search_documents h query top_k s = (Returned results, s') ->
  exists pre answer hits,
    log s' = log s ++ pre ++ [answer]
    /\ asked_limit (ev_call answer) = Some (VInt top_k)
    /\ answered_hits answer = Some hits
    /\ Forall2 (fun hit r => hit_tuple (kind h) hit = Returned r) hits results.
Proof.
  unfold_search_documents.
  destruct (kind h) eqn:Hk; run; try by intros [=].
  - destruct (mapO _ _) as [rs|e] eqn:Hrs; intros [= <- <-].
    eexists [_; _], _, _. cbn [log]. rewrite <- !(assoc_L (++)).
    split; [reflexivity|]. split; [reflexivity|]. split; [reflexivity|].
    apply Forall2_fmap_l. by apply mapO_Forall2.
  - unfold mbind, Outcome_bind.
    destruct (getitem r0 "result") as [result|e] eqn:Hres; [|by intros [=]].
    destruct (getitem result "hits") as [hits|e] eqn:Hhits; [|by intros [=]].
    destruct (iter hits) as [hs|e] eqn:Hiter; [|by intros [=]].
    destruct (mapO _ _) as [rs|e] eqn:Hrs; intros [= <- <-].
    eexists [_], _, (DictHit <$> hs). cbn [log]. rewrite <- !(assoc_L (++)).
    split; [reflexivity|]. split; [reflexivity|]. split.
    { unfold answered_hits, hits_of_results, mbind, Outcome_bind.
      cbn [ev_call ev_result]. by rewrite Hres, Hhits, Hiter. }
    apply Forall2_fmap_l. by apply mapO_Forall2.
  - destruct (r0 !! 0%nat) as [query_vector|] eqn:Hq; run; try by intros [=].
    destruct (mapO _ _) as [rs|e] eqn:Hrs; intros [= <- <-].
    eexists [_; _], _, _. cbn [log]. rewrite <- !(assoc_L (++)).
    split; [reflexivity|]. split; [reflexivity|]. split; [reflexivity|].
    apply Forall2_fmap_l. by apply mapO_Forall2.
  - destruct (mapO _ _) as [rs|e] eqn:Hrs; intros [= <- <-].
    eexists [], _, _. cbn [log].
    split; [reflexivity|]. split; [reflexivity|]. split; [reflexivity|].
    apply Forall2_fmap_l. by apply mapO_Forall2.
Qed.

(** The outcome of a search, whatever happens: the run ends with a call; if
    that call is an answered query, the outcome is the hit-by-hit conversion
    of its hits (which returns unless a hit lacks a requested field); if it
    is not, the search raised. *)
Lemma search_documents_outcome h query top_k s :
  exists pre answer,
    log (search_documents h query top_k s).2 = log s ++ pre ++ [answer]
    /\ match answered_hits answer with
       | Some hits =>
           (search_documents h query top_k s).1 = mapO (hit_tuple (kind h)) hits
       | None => exists e, (search_documents h query top_k s).1 = Raised e
       end.
Proof.
  assert (forall (hits : list (@Value float)) k f,
             (forall hit, hit_tuple k (DictHit hit) = f hit) ->
             mapO f hits = mapO (hit_tuple k) (DictHit <$> hits)) as Hdict.
  { intros hits k f Hf. induction hits as [|hit hits IH]; [done|].
    cbn [mapO fmap list_fmap]. by rewrite Hf, IH. }
  assert (forall hits : list (@QueryResponse float),
             mapO qdrant_hit hits = mapO (hit_tuple QdrantClient) (ObjectHit <$> hits))
    as Hobject.
  { intros hits. induction hits as [|hit hits IH]; [done|].
    cbn [mapO fmap list_fmap hit_tuple]. by rewrite IH. }
  unfold_search_documents.
  destruct (kind h) eqn:Hk; run.
  all: try match goal with
      | |- context [?r !! 0%nat] => destruct (r !! 0%nat) eqn:?; run
      end.
  all: cbn [fst snd log]; rewrite <- ?(assoc_L (++)).
  all: first
    [ eexists [], _; split; [reflexivity|]
    | eexists [_], _; split; [reflexivity|]
    | eexists [_; _], _; split; [reflexivity|] ].
  all: unfold answered_hits, hits_of_results; cbn [ev_call ev_result].
  all: try (by eexists).
  - by apply Hdict.
  - unfold mbind, Outcome_bind.
    destruct (getitem r0 "result") as [result|e]; [|by eexists].
    destruct (getitem result "hits") as [hits|e]; [|by eexists].
    destruct (iter hits) as [hs|e]; [|by eexists].
    by apply Hdict.
  - by apply Hdict.
  - apply Hobject.
Qed.

Lemma hit_tuple_tuple_of k (hit : @Hit float) r :
  hit_tuple k hit = Returned r <-> tuple_of k hit r.
Proof.
  split.
  - destruct k, hit as [hit|hit]; cbn [hit_tuple]; try done;
      unfold milvus_hit, pinecone_hit, mongo_hit, qdrant_hit, mbind, Outcome_bind.
    all: repeat match goal with
           | |- context [getitem ?v ?key] => destruct (getitem v key) eqn:?; [|done]
           end.
    all: intros [= <-]; econstructor; eauto.
  - destruct 1; cbn [hit_tuple];
      unfold milvus_hit, pinecone_hit, mongo_hit, qdrant_hit, mbind, Outcome_bind.
    all: repeat match goal with H : getitem _ _ = _ |- _ => rewrite H; clear H end.
    all: done.
Qed.

(** C5. The results of a search are the hits of the backend's answer, one
    tuple per hit and in the order of the answer, and the tuple of a hit is
    its own (title, text, score) as [tuple_of] reads them off the hit.
    Every run of [search_documents] ends with a call.  If that call is an
    answered query, the search returns exactly when every hit of the answer
    has a title, a text and a score, and what it returns is then the list of
    those tuples, hit by hit: as many results as hits, result [i] from hit
    [i], nothing re-ranked, dropped, cut or added.  If it is not (the query
    raised, or one of the calls before it, or the answer has no list of
    hits), the search raises. *)
Theorem search_returns_one_tuple_per_hit h query top_k s :
  exists pre answer,
    log (search_documents h query top_k s).2 = log s ++ pre ++ [answer]
    /\ match answered_hits answer with
       | Some hits =>
           forall results,
             (search_documents h query top_k s).1 = Returned results
             <-> Forall2 (tuple_of (kind h)) hits results
       | None => exists e, (search_documents h query top_k s).1 = Raised e
       end.
Proof.
  destruct (search_documents_outcome h query top_k s) as (pre & answer & Hlog & Hout).
  exists pre, answer. split; [done|].
  destruct (answered_hits answer) as [hits|]; [|done].
  intros results. rewrite Hout, mapO_Forall2.
  split; intros Hall; (eapply Forall2_impl; [exact Hall|]);
    intros hit r; apply hit_tuple_tuple_of.
Qed.

(** C7 (as amended).  With [top_k = 0] the adapter still queries the
    backend, asking for a limit of 0, and returns one tuple per hit of the
    answer: the result is empty exactly when the backend answered with no
    hit.  The adapter itself never cuts the answer down to [top_k]. *)
Theorem search_limit_zero_is_forwarded h query s results s' :
  search_documents h query 0 s = (Returned results, s') ->
  exists pre answer hits,
    log s' = log s ++ pre ++ [answer]
    /\ asked_limit (ev_call answer) = Some (VInt 0)
    /\ answered_hits answer = Some hits
    /\ length results = length hits
    /\ (results = [] <-> hits = []).
Proof.
  intros (pre & answer & hits & Hlog & Hlim & Hhits & Hall)%search_documents_returned.
  exists pre, answer, hits. repeat split; [done..| | |].
  - symmetry. by eapply Forall2_length.
  - intros ->. by apply Forall2_nil_inv_r in Hall.
  - intros ->. by apply Forall2_nil_inv_l in Hall.
Qed.


(** On Milvus the identifier of a record is its position in its batch. *)
Lemma milvus_rows_ids (vectors : list (@Vec float)) documents
    (positions : list nat) (data : list Value) :
  Forall2 (fun i row => milvus_row vectors documents i = Returned row)
    positions data ->
  data ≫= record_id "id" = (fun i => VInt (Z.of_nat i)) <$> positions.
Proof.
  induction 1 as [|i row positions data Hrow _ IH]; [done|].
  cbn [mbind list_bind fmap list_fmap]. rewrite <- IH. clear IH.
  unfold milvus_row in Hrow.
  destruct (vectors !! i); [|done]. destruct (documents !! i); [|done].
  by injection Hrow as <-.
Qed.

Lemma milvus_identifiers_are_batch_positions h documents s s' :
  kind h = MilvusClient ->
  index_documents h documents s = (Returned tt, s') ->
  exists n,
    ids_written (log s') =
    ids_written (log s) ++ ((fun i => VInt (Z.of_nat i)) <$> seq 0%nat n).
Proof.
  intros Hk Hrun.
  destruct (index_documents_milvus _ _ _ _ Hk Hrun)
    as (vectors & data & -> & _ & Hdata%mapO_Forall2).
  exists (length vectors). unfold ids_written. rewrite bind_app. f_equal.
  cbn [mbind list_bind ev_call written_ids app].
  rewrite app_nil_r. by eapply milvus_rows_ids.
Qed.

(** ** Sessions over time *)

Lemma step_keeps_handles s s' name h :
  step oracle settings s s' ->
  cache s !! name = Some h ->
  cache s' !! name = Some h.
Proof.
  intros [name'|h' documents|h' query top_k] Hh.
  - by apply get_connection_keeps_handles.
  - unfold cache. by rewrite (proj1 (index_documents_stateless h' documents s)).
  - unfold cache. by rewrite (proj1 (search_documents_stateless h' query top_k s)).
Qed.

(** X1.  Once [get_connection] has returned a handle for a name, every later
    [get_connection] for that name in the session returns that handle and
    changes nothing, whatever was connected, indexed or searched in between
    and however those operations ended. *)
Theorem handle_survives_later_operations name s0 h s s' :
  get_connection name s0 = (Returned (Some h), s) ->
  later oracle settings s s' ->
  get_connection name s' = (Returned (Some h), s').
Proof.
  intros Hrun%get_connection_stores Hlater.
  apply get_connection_cached.
  induction Hlater as [|s1 s2 s3 Hstep _ IH]; [done|].
  apply IH. by eapply step_keeps_handles.
Qed.

Lemma step_keeps_classes s s' :
  step oracle settings s s' ->
  (forall k h, cache s !! k = Some h -> client_class k = Some (kind h)) ->
  forall k h, cache s' !! k = Some h -> client_class k = Some (kind h).
Proof.
  intros [name|h' documents|h' query top_k] Hinv k h.
  - destruct (cache s !! name) as [h0|] eqn:Hc.
    { rewrite (get_connection_cached _ _ _ Hc). apply Hinv. }
    unfold_get_connection. unfold_ops. rewrite Hc.
    repeat case_decide; run; try apply Hinv.
    all: destruct (decide (k = name)) as [->|Hne];
      [ rewrite lookup_insert_eq; intros [= <-]; unfold client_class;
        repeat case_decide; done
      | rewrite lookup_insert_ne by done; apply Hinv ].
  - unfold cache. rewrite (proj1 (index_documents_stateless h' documents s)).
    apply Hinv.
  - unfold cache. rewrite (proj1 (search_documents_stateless h' query top_k s)).
    apply Hinv.
Qed.

(** X2.  In every session that started fresh, the handle [get_connection] returns
    for a name is a client of the class of that backend, so that indexing and
    searching with it take the branch of that backend. *)
Theorem get_connection_returns_client_of_backend name s h s' :
  later oracle settings fresh_session s ->
  get_connection name s = (Returned (Some h), s') ->
  client_class name = Some (kind h).
Proof.
  intros Hlater Hrun.
  assert (forall k h, cache s' !! k = Some h -> client_class k = Some (kind h))
    as Hinv.
  { apply (step_keeps_classes s); [|].
    - replace s' with (get_connection name s).2 by (by rewrite Hrun).
      constructor.
    - clear Hrun. unfold later in Hlater.
      eapply (rtc_ind_r (fun s => forall k h, cache s !! k = Some h ->
                                   client_class k = Some (kind h)));
        [|intros s2 s3 _ Hstep IH|exact Hlater].
      + by intros k h0.
      + by apply (step_keeps_classes s2). }
  apply Hinv. by eapply get_connection_stores.
Qed.

(** X3.  The Pinecone index is looked for before it is created: setting up the
    Pinecone connection asks [has_index] and calls [create_index_for_model]
    exactly when the answer is no. *)
Theorem pinecone_index_created_only_if_missing s h s' :
  cache s !! "Pinecone" = None ->
  get_connection "Pinecone" s = (Returned (Some h), s') ->
  exists has,
    log s' = log s ++
      [Entry (Pinecone_init h (pinecone_api_key (pinecone_settings settings)))
             (Returned tt);
       Entry (Pinecone_has_index h (pinecone_index_name (pinecone_settings settings)))
             (Returned has)] ++
      (if has then []
       else [Entry (Pinecone_create_index_for_model h
                      (pinecone_index_name (pinecone_settings settings))
                      "aws" "us-east-1" pinecone_embed)
                   (Returned tt)]).
Proof.
  intros Hc. unfold_get_connection. unfold_ops. rewrite Hc.
  case_decide; [done|]. case_decide; [|done].
  run; try by intros [=].
  all: intros [= <- <-]; cbn [log]; rewrite <- ?(assoc_L (++)).
  all: repeat match goal with u : () |- _ => destruct u end.
  - by exists true.
  - by exists false.
Qed.

(** ** Identifiers on Pinecone and Qdrant *)

Lemma mapM_uuid4 (documents : list (string * string)) s ids s1 :
  mapM (fun _ => perform uuid4_str) documents s = (Returned ids, s1) ->
  exists delta,
    log s1 = log s ++ delta
    /\ generated_ids delta = ids
    /\ length ids = length documents
    /\ writes delta = []
    /\ ids_written delta = []
    /\ uuids delta = ids
    /\ object_ids delta = [].
Proof.
  revert s ids s1. induction documents as [|doc documents IH]; intros s ids s1.
  { intros [= <- <-]. exists []. by rewrite app_nil_r. }
  cbn [mapM]. rewrite run_bind. unfold_perform. cbn [fst snd].
  destruct (oracle string (log s) uuid4_str) as [i|e] eqn:Hi; [|by intros [=]].
  rewrite run_bind.
  destruct (mapM _ documents _) as [[rest|e] s2] eqn:Hrest; [|by intros [=]].
  intros [= <- <-].
  destruct (IH _ _ _ Hrest) as (delta & Hlog & Hids & Hlen & Hw & Hi' & Hu & Ho).
  cbn [log] in Hlog.
  exists (Entry uuid4_str (Returned i) :: delta). split.
  { by rewrite Hlog, <- (assoc_L (++)). }
  unfold generated_ids, writes, ids_written, uuids, object_ids in *.
  cbn [omap list_omap mbind list_bind generated_id uuid object_id
       ev_call ev_result batch_size written_ids app length].
  by rewrite Hids, Hlen, Hw, Hi', Hu, Ho.
Qed.

Lemma mapM_pinecone_record (documents : list (string * string)) s records s1 :
  mapM (pinecone_record oracle) documents s = (Returned records, s1) ->
  exists delta,
    log s1 = log s ++ delta
    /\ length (generated_ids delta) = length documents
    /\ records = zip_with pinecone_row (generated_ids delta) documents
    /\ writes delta = []
    /\ ids_written delta = []
    /\ object_ids delta = generated_ids delta
    /\ uuids delta = [].
Proof.
  revert s records s1.
  induction documents as [|doc documents IH]; intros s records s1.
  { intros [= <- <-]. exists []. by rewrite app_nil_r. }
  cbn [mapM]. rewrite run_bind. unfold pinecone_record at 1.
  rewrite run_bind. unfold_perform. cbn [fst snd].
  destruct (oracle string (log s) ObjectId_str) as [i|e] eqn:Hi; [|by intros [=]].
  unfold mret at 1, M_ret at 1. rewrite run_bind.
  destruct (mapM _ documents _) as [[rest|e] s2] eqn:Hrest; [|by intros [=]].
  intros [= <- <-].
  destruct (IH _ _ _ Hrest) as (delta & Hlog & Hlen & Hrec & Hw & Hi' & Ho & Hu).
  cbn [log] in Hlog.
  exists (Entry ObjectId_str (Returned i) :: delta). split.
  { by rewrite Hlog, <- (assoc_L (++)). }
  unfold generated_ids, writes, ids_written, uuids, object_ids in *.
  cbn [omap list_omap mbind list_bind generated_id uuid object_id
       ev_call ev_result batch_size written_ids app length zip_with].
  by rewrite Hlen, Hrec, Hw, Hi', Ho, Hu.
Qed.

Lemma pinecone_rows_ids (ids : list string) (documents : list (string * string)) :
  length ids = length documents ->
  zip_with (pinecone_row (float:=float)) ids documents ≫= record_id "_id"
  = VStr <$> ids.
Proof.
  revert documents. induction ids as [|i ids IH]; intros [|doc documents] [=]; [done|].
  cbn [zip_with mbind list_bind fmap list_fmap]. by rewrite IH.
Qed.

(** X5.  A successful [index_documents] on Pinecone draws one identifier per
    document from [ObjectId] (and none from [uuid4]), on Qdrant one per
    document from [uuid4] (and none from [ObjectId]), and then writes the
    batch once, as its last call.  On Pinecone record [i] of
    [upsert_records] is the dict of the [i]-th identifier drawn with the
    title and the text of document [i]; on Qdrant [add] is given the texts,
    one [{"title": title}] per document and the identifiers drawn.  The
    identifiers written are the identifiers drawn, in that order. *)
Theorem index_writes_generated_identifiers h documents s s' :
  kind h = PineconeClient \/ kind h = QdrantClient ->
  index_documents h documents s = (Returned tt, s') ->
  exists pre write,
    log s' = log s ++ pre ++ [write]
    /\ match kind h with
       | PineconeClient =>
           length (object_ids pre) = length documents
           /\ uuids pre = []
           /\ write =
                Entry (Index_upsert_records h
                         (pinecone_index_name (pinecone_settings settings)) "namespace"
                         (zip_with
                            (fun _id doc =>
                               VDict [("_id", VStr _id); ("title", VStr doc.1);
                                      ("text", VStr doc.2)])
                            (object_ids pre) documents))
                      (Returned tt)
           /\ ids_written (pre ++ [write]) = VStr <$> object_ids pre
       | _ =>
           length (uuids pre) = length documents
           /\ object_ids pre = []
           /\ write =
                Entry (Qdrant_add h (qdrant_collection_name (qdrant_settings settings))
                         (snd <$> documents)
                         ((fun doc => VDict [("title", VStr doc.1)]) <$> documents)
                         (uuids pre))
                      (Returned tt)
           /\ ids_written (pre ++ [write]) = VStr <$> uuids pre
       end
    /\ writes (pre ++ [write]) = [length documents].
Proof.
  intros [Hk|Hk]; unfold_index_documents; rewrite Hk.
  - rewrite run_bind. unfold_perform. cbn [fst snd].
    destruct (oracle () (log s) _) as [[]|e] eqn:Hindex; [|by intros [=]].
    rewrite run_bind.
    destruct (mapM _ documents _) as [[records|e] s1] eqn:Hrecords; [|by intros [=]].
    destruct (mapM_pinecone_record _ _ _ _ Hrecords)
      as (delta & Hlog & Hlen & -> & Hw & Hi & Ho & Hu).
    cbn [log] in Hlog. unfold_ops.
    destruct (oracle () (log s1) _) as [[]|e] eqn:Hwrite; intros [= <-].
    eexists (_ :: delta), _. cbn [log]. split.
    { by rewrite Hlog, <- !(assoc_L (++)). }
    assert (object_ids (Entry (Pinecone_Index h
              (pinecone_index_name (pinecone_settings settings))) (Returned ()) :: delta)
            = generated_ids delta) as -> by done.
    assert (uuids (Entry (Pinecone_Index h
              (pinecone_index_name (pinecone_settings settings))) (Returned ()) :: delta)
            = []) as -> by done.
    unfold writes, ids_written in *.
    rewrite !omap_app, !bind_app.
    cbn [omap list_omap mbind list_bind ev_call ev_result batch_size
         written_ids app].
    rewrite Hw, Hi, app_nil_r.
    change (zip_with _ (generated_ids delta) documents)
      with (zip_with (pinecone_row (float:=float)) (generated_ids delta) documents).
    rewrite pinecone_rows_ids by done.
    rewrite length_zip_with_l_eq by done. by rewrite Hlen.
  - rewrite run_bind.
    destruct (mapM _ documents _) as [[ids|e] s1] eqn:Hids; [|by intros [=]].
    destruct (mapM_uuid4 _ _ _ _ Hids) as (delta & Hlog & _ & Hlen & Hw & Hi & <- & Ho).
    unfold_ops.
    destruct (oracle () (log s1) _) as [[]|e] eqn:Hwrite; intros [= <-].
    exists delta. eexists. cbn [log]. split.
    { by rewrite Hlog, <- !(assoc_L (++)). }
    unfold writes, ids_written in *.
    rewrite !omap_app, !bind_app.
    cbn [omap list_omap mbind list_bind ev_call ev_result batch_size
         written_ids app].
    by rewrite Hw, Hi, app_nil_r, length_fmap.
Qed.

(** ** What an operation never calls *)

Lemma emits_ret {A} P (a : A) : emits (float:=float) P (mret a).
Proof. intros s. exists []. by rewrite app_nil_r. Qed.

Lemma emits_lift {A} P (o : Outcome A) : emits (float:=float) P (lift o).
Proof. intros s. exists []. by rewrite app_nil_r. Qed.

Lemma emits_silent {A} P (m : @M float A) :
  (forall s, log (m s).2 = log s) -> emits P m.
Proof. intros Hm s. exists []. by rewrite app_nil_r, Hm. Qed.

Lemma emits_perform {R} (P : @LogEntry float -> Prop) (c : Call R) :
  (forall r, P (Entry c r)) -> emits P (perform c).
Proof.
  intros HP s. unfold_perform. cbn [fst snd log].
  eexists [_]. split; [done|]. by constructor.
Qed.

Lemma emits_bind {A B} P (m : @M float A) (f : A -> @M float B) :
  emits P m -> (forall a, emits P (f a)) -> emits P (m ≫= f).
Proof.
  intros Hm Hf s. rewrite run_bind.
  destruct (Hm s) as (d1 & Hlog1 & Hp1).
  destruct (m s) as [[a|e] s1]; cbn in *; [|by exists d1].
  destruct (Hf a s1) as (d2 & Hlog2 & Hp2).
  exists (d1 ++ d2). split.
  - by rewrite Hlog2, Hlog1, (assoc_L (++)).
  - by apply Forall_app.
Qed.

Lemma emits_mapM {A B} P (f : A -> @M float B) (xs : list A) :
  (forall x, emits P (f x)) -> emits P (mapM f xs).
Proof.
  intros Hf. induction xs as [|x xs IH]; cbn.
  - apply emits_ret.
  - apply emits_bind; [done|]. intros y.
    apply emits_bind; [done|]. intros ys. apply emits_ret.
Qed.

Ltac emit :=
  repeat first
    [ apply emits_bind; [|intros ?]
    | apply emits_mapM; intros ?
    | apply emits_ret
    | apply emits_lift
    | solve [apply emits_perform; intros ?; split; cbn; done]
    | solve [apply emits_perform; intros ?; reflexivity]
    | solve [apply emits_silent; intros ?; reflexivity]
    | case_match
    | case_decide ].

Lemma get_connection_emits name : emits connects_only (get_connection name).
Proof.
  unfold_get_connection.
  unfold new_MilvusClient, new_Pinecone, new_MongoClient, new_QdrantClient.
  emit.
Qed.

Lemma index_documents_emits h documents :
  emits asks_nothing (index_documents h documents).
Proof. unfold_index_documents. unfold pinecone_record. emit. Qed.

Lemma search_documents_emits h query top_k :
  emits (reads_only top_k) (search_documents h query top_k).
Proof. unfold_search_documents. emit. Qed.

(** ** Malformed hits *)

Lemma mapO_first_failure {A B} (f : A -> Outcome B) good bad rest e :
  Forall (fun x => exists y, f x = Returned y) good ->
  f bad = Raised e ->
  mapO f (good ++ bad :: rest) = Raised e.
Proof.
  intros Hgood Hbad. induction Hgood as [|x good [y Hy] _ IH]; cbn [mapO app].
  - by rewrite Hbad.
  - by rewrite Hy, IH.
Qed.

(** X6.  One hit that lacks a requested field spoils the whole search: when the
    answer to the query holds a hit that cannot be converted, the search
    raises the exception of the first such hit (the [KeyError] of the missing
    key) and returns no result, not even those of the well-formed hits
    before it. *)
Theorem search_raises_on_first_malformed_hit
    h query top_k s pre answer good bad rest e :
  log (search_documents h query top_k s).2 = log s ++ pre ++ [answer] ->
  answered_hits answer = Some (good ++ bad :: rest) ->
  Forall (fun hit => exists r, hit_tuple (kind h) hit = Returned r) good ->
  hit_tuple (kind h) bad = Raised e ->
  (search_documents h query top_k s).1 = Raised e.
Proof.
  intros Hlog Hhits Hgood Hbad.
  destruct (search_documents_outcome h query top_k s)
    as (pre' & answer' & Hlog' & Hout).
  rewrite Hlog in Hlog'. apply (inj (app (log s))) in Hlog'.
  apply app_inj_tail in Hlog' as [_ <-].
  rewrite Hhits in Hout. rewrite Hout. by apply mapO_first_failure.
Qed.

(** ** Reading and writing calls *)

Lemma queries_cons en delta :
  queries (en :: delta)
  = if is_query (ev_call en) then en :: queries delta else queries delta.
Proof.
  unfold queries. rewrite filter_cons.
  destruct (is_query (ev_call en)); by case_decide.
Qed.

Lemma queries_app delta1 delta2 :
  queries (delta1 ++ delta2) = queries delta1 ++ queries delta2.
Proof. apply filter_app. Qed.

Lemma writes_app delta1 delta2 :
  writes (delta1 ++ delta2) = writes delta1 ++ writes delta2.
Proof. apply omap_app. Qed.

Lemma connects_only_quiet delta :
  Forall connects_only delta -> writes delta = [] /\ queries delta = [].
Proof.
  induction 1 as [|en delta [Hw Hq] _ [IHw IHq]]; [done|].
  rewrite queries_cons, Hq. unfold writes in *. cbn. by rewrite Hw.
Qed.

Lemma asks_nothing_quiet delta :
  Forall asks_nothing delta -> queries delta = [].
Proof.
  induction 1 as [|en delta Hq _ IHq]; [done|].
  unfold asks_nothing in Hq. by rewrite queries_cons, Hq.
Qed.

Lemma reads_only_quiet top_k delta :
  Forall (reads_only top_k) delta ->
  writes delta = []
  /\ Forall (fun en => asked_limit (ev_call en) = Some (VInt top_k)) (queries delta).
Proof.
  induction 1 as [|en delta [Hw Hq] _ [IHw IHq]]; [done|].
  split.
  - unfold writes in *. cbn. by rewrite Hw.
  - rewrite queries_cons. destruct (is_query (ev_call en)); [|done].
    constructor; [by apply Hq|done].
Qed.

(** X4.  Connecting neither writes nor queries: whatever [get_connection] is
    asked and however its calls end, no call it makes carries records or asks
    for hits. *)
Theorem get_connection_neither_writes_nor_queries name s :
  exists delta,
    log (get_connection name s).2 = log s ++ delta
    /\ writes delta = []
    /\ queries delta = [].
Proof.
  destruct (get_connection_emits name s) as (delta & Hlog & Hall).
  exists delta. split; [done|]. by apply connects_only_quiet.
Qed.

(** X7.  Searching only reads: on every backend and however its calls end,
    [search_documents] makes no write call, leaves the session cache as it
    is, and every query it makes asks for exactly [top_k] hits. *)
Theorem search_documents_only_reads h query top_k s :
  connections (search_documents h query top_k s).2 = connections s
  /\ exists delta,
       log (search_documents h query top_k s).2 = log s ++ delta
       /\ writes delta = []
       /\ Forall (fun en => asked_limit (ev_call en) = Some (VInt top_k))
            (queries delta).
Proof.
  split; [apply search_documents_stateless|].
  destruct (search_documents_emits h query top_k s) as (delta & Hlog & Hall).
  exists delta. split; [done|]. by apply reads_only_quiet.
Qed.

(** ** From indexing to searching *)

Context `{!EqDecision float}.








End Properties.

(** * Runs on concrete inputs *)

Section Runs.

Import Demo Scenes.

Lemma store_oracle_embeds_each_text : embeds_each_text store_oracle.
Proof. intros l texts vectors [= <-]. apply length_fmap. Qed.

(** C1, the claim as stated fails: with a server that cannot be reached when
    the collection is first created, the first call for "Milvus" raises and
    caches nothing, and the second call goes through the whole setup again:
    in one session two clients are constructed and the collection is
    created twice. *)
Lemma setup_runs_again_after_a_failure :
  connect_flaky.1 = Raised unreachable
  /\ connect_flaky_again.1 = Returned (Some second_milvus)
  /\ call_names (log connect_flaky_again.2)
     = ["MilvusClient"; "create_collection"; "MilvusClient"; "create_collection"]
  /\ constructions (log connect_flaky_again.2) = [MilvusClient; MilvusClient]
  /\ creations (log connect_flaky_again.2) = 2%nat.
Proof. vm_compute. by repeat split. Qed.

(** A known and an unknown name in a fresh session. *)
Lemma get_connection_never_falls_through_witness :
  ("Milvus" ∈ DATABASE_NAMES
   /\ cache connect_milvus.2 !! "Milvus" = Some milvus)
  /\ (("Chroma" ∉ DATABASE_NAMES)
      /\ connect_chroma.1 = Returned None
      /\ cache connect_chroma.2 = cache start).
Proof.
  assert ("Milvus" ∈ DATABASE_NAMES) as Hin
    by (apply (bool_decide_unpack _); vm_compute; exact I).
  assert ("Chroma" ∉ DATABASE_NAMES) as Hout
    by (apply (bool_decide_unpack _); vm_compute; exact I).
  assert (forall k, is_Some (cache start !! k) -> k ∈ DATABASE_NAMES)
    as Hinv by (by intros k [h Hk]).
  split; split; [done| |done|].
  - pose proof (proj1 (get_connection_never_falls_through
                         store_oracle settings "Milvus" start) Hin) as H.
    vm_compute in H. vm_compute. exact H.
  - destruct (proj2 (get_connection_never_falls_through
                       store_oracle settings "Chroma" start) Hout Hinv)
      as (Hrun & Hcache & _).
    split; [unfold connect_chroma; by rewrite Hrun|exact Hcache].
Defined.

(** Indexing two documents on Milvus. *)
Lemma index_pairs_embeddings_with_documents_witness :
  embeds_each_text store_oracle
  /\ index_two = (Returned tt, index_two.2)
  /\ exists (vectors : list (list Z)) (records : list (@Value Z)),
       length vectors = 2%nat
       /\ length records = 2%nat
       /\ exists v,
            vectors !! 1%nat = Some v
            /\ records !! 1%nat =
                 Some (VDict [("id", VInt 1); ("vector", VArray v);
                              ("text", VStr "the stock market fell today");
                              ("title", VStr "b.txt")]).
Proof.
  assert (index_two = (Returned tt, index_two.2)) as Hrun
    by (vm_compute; reflexivity).
  split; [exact store_oracle_embeds_each_text|]. split; [exact Hrun|].
  destruct (index_pairs_embeddings_with_documents
              store_oracle settings milvus two_documents start index_two.2
              store_oracle_embeds_each_text (or_introl eq_refl) Hrun)
    as (vectors & records & Hlv & Hlr & _ & Hpair).
  exists vectors, records. split; [exact Hlv|]. split; [exact Hlr|].
  exact (Hpair 1%nat ("b.txt", "the stock market fell today") eq_refl).
Defined.

(** Searching Qdrant after two documents were indexed. *)
Lemma search_returns_one_tuple_per_hit_witness :
  (search_documents store_oracle settings qdrant "cats are mammals" 3 qdrant_indexed).1
  = Returned one_result
  /\ exists pre answer hits,
       log (search_documents store_oracle settings qdrant "cats are mammals" 3
              qdrant_indexed).2
       = log qdrant_indexed ++ pre ++ [answer]
       /\ answered_hits answer = Some hits
       /\ Forall2 (tuple_of QdrantClient) hits one_result.
Proof.
  assert ((search_documents store_oracle settings qdrant "cats are mammals" 3
             qdrant_indexed).1 = Returned one_result) as Hrun
    by (vm_compute; reflexivity).
  split; [exact Hrun|].
  destruct (search_returns_one_tuple_per_hit
              store_oracle settings qdrant "cats are mammals" 3 qdrant_indexed)
    as (pre & answer & Hlog & Hout).
  exists pre, answer.
  destruct (answered_hits answer) as [hits|].
  - exists hits. split; [exact Hlog|]. split; [reflexivity|].
    exact (proj1 (Hout one_result) Hrun).
  - destruct Hout as [e He]. rewrite Hrun in He. discriminate He.
Defined.

(** The Milvus server is down while the connection is set up. *)
Lemma backend_errors_propagate_witness :
  connect_while_down.1 = Raised unreachable
  /\ cache connect_while_down.2 = cache start.
Proof.
  assert (connect_while_down.1 = Raised unreachable) as Hrun
    by (vm_compute; reflexivity).
  split; [exact Hrun|].
  exact (proj2 (proj1 (backend_errors_propagate down_oracle settings) "Milvus")
           start unreachable Hrun).
Defined.

(** C2, the claim as stated fails: indexing the empty batch on Milvus
    returns, but not without a write call; the log ends with an [insert]. *)
Lemma index_empty_batch_is_not_a_no_op :
  index_nothing.1 = Returned tt
  /\ call_names (log index_nothing.2) = ["TextEmbedding"; "embed"; "insert"]
  /\ writes (log index_nothing.2) <> [].
Proof. vm_compute. by repeat split. Qed.

(** C7, the claim as stated fails: what a search with [top_k = 0] yields is
    up to the backend.  Against a backend that answers with a hit whatever
    the limit, it returns that hit; against one that rejects the limit, it
    raises and returns nothing. *)
Lemma search_limit_zero_is_not_empty :
  (search_zero.1 = Returned one_result /\ search_zero.1 <> Returned [])
  /\ (search_zero_strict.1 = Raised bad_limit
      /\ search_zero_strict.1 <> Returned []).
Proof. vm_compute. by repeat split. Qed.

Lemma search_limit_zero_is_forwarded_witness :
  search_zero = (Returned one_result, search_zero.2)
  /\ exists pre answer hits,
       log search_zero.2 = log start ++ pre ++ [answer]
       /\ asked_limit (ev_call answer) = Some (VInt 0)
       /\ answered_hits answer = Some hits
       /\ length one_result = length hits
       /\ (one_result = [] <-> hits = []).
Proof.
  assert (search_zero = (Returned one_result, search_zero.2)) as Hrun
    by (vm_compute; reflexivity).
  split; [exact Hrun|].
  exact (search_limit_zero_is_forwarded
           stub_oracle settings qdrant "feline animals" start one_result
           search_zero.2 Hrun).
Defined.









(** C4, evaluated: two batches are indexed on one Milvus client; the record
    of the second batch gets the identifier the record of the first batch
    already has. *)
Theorem milvus_identifiers_restart_with_every_batch :
  index_two_batches.1 = Returned tt
  /\ writes (log index_two_batches.2) = [1%nat; 1%nat]
  /\ ids_written (log index_two_batches.2) = [VInt 0; VInt 0].
Proof. vm_compute. by repeat split. Qed.

End Runs.

(** * Properties of the configuration loading *)

Section ConfigProperties.

Variable environment : forall R : Type, list Config.ConfigEntry -> Config.ConfigCall R -> Outcome R.

Implicit Types (st : Config.ConfigState) (self : nat) (obj : Config.SettingsObject).

Ltac cfg_unfold :=
  unfold Config.qdrant_database_config, Config.milvus_database_config,
    Config.mongodb_database_config, Config.pinecone_database_config,
    Config.get_settings, Config.Settings_new,
    Config.QDrantConfig_get_settings, Config.MilvusConfig_get_settings,
    Config.MongoDBConfig_get_settings, Config.PineconeConfig_get_settings,
    Config.deref, Config.store, Config.construct,
    mbind, StateExc_bind, mret, StateExc_ret in *;
  cbn [fst snd Config.loads Config.objects Config.QDrantConfig_cache
       Config.MilvusConfig_cache Config.MongoDBConfig_cache
       Config.PineconeConfig_cache Config.Settings_cache] in *.

Ltac cfg_cases := cfg_unfold; repeat (case_match; cfg_unfold); simplify_eq.

(** Case analysis on what the goal branches on: attributes, caches and the
    answers of the environment. *)
Ltac cfg_split :=
  repeat (cfg_unfold;
          match goal with
          | |- context [match ?x with Some _ => _ | None => _ end] =>
              destruct x eqn:?
          | |- context [environment ?R ?l ?c] =>
              destruct (environment R l c) eqn:?
          | |- context [match ?x with (_, _) => _ end] => destruct x
          end);
  cfg_unfold.

(** A property that returned has left its value in the attribute. *)
Lemma qdrant_database_config_sets self st c st1 :
  Config.qdrant_database_config environment self st = (Returned c, st1) ->
  exists obj,
    Config.objects st1 !! self = Some obj
    /\ Config._qdrant_database_config obj = Some c.
Proof.
  cfg_cases; intros; simplify_eq; cbn.
  all: try (eexists; split; [eassumption|done]).
  all: eexists; split; [apply list_lookup_insert_eq; by eapply lookup_lt_Some|done].
Qed.

Lemma milvus_database_config_sets self st c st1 :
  Config.milvus_database_config environment self st = (Returned c, st1) ->
  exists obj,
    Config.objects st1 !! self = Some obj
    /\ Config._milvus_database_config obj = Some c.
Proof.
  cfg_cases; intros; simplify_eq; cbn.
  all: try (eexists; split; [eassumption|done]).
  all: eexists; split; [apply list_lookup_insert_eq; by eapply lookup_lt_Some|done].
Qed.

Lemma mongodb_database_config_sets self st c st1 :
  Config.mongodb_database_config environment self st = (Returned c, st1) ->
  exists obj,
    Config.objects st1 !! self = Some obj
    /\ Config._mongodb_database_config obj = Some c.
Proof.
  cfg_cases; intros; simplify_eq; cbn.
  all: try (eexists; split; [eassumption|done]).
  all: eexists; split; [apply list_lookup_insert_eq; by eapply lookup_lt_Some|done].
Qed.

Lemma pinecone_database_config_sets self st c st1 :
  Config.pinecone_database_config environment self st = (Returned c, st1) ->
  exists obj,
    Config.objects st1 !! self = Some obj
    /\ Config._pinecone_database_config obj = Some c.
Proof.
  cfg_cases; intros; simplify_eq; cbn.
  all: try (eexists; split; [eassumption|done]).
  all: eexists; split; [apply list_lookup_insert_eq; by eapply lookup_lt_Some|done].
Qed.

Lemma step_keeps_attributes st st' self obj :
  Config.step environment st st' ->
  Config.objects st !! self = Some obj ->
  exists obj', Config.objects st' !! self = Some obj' /\ Config.attributes_kept obj obj'.
Proof.
  assert (Config.attributes_kept obj obj) as Hrefl by done.
  intros [| | | | | |self'|self'|self'|self'] Hobj; cfg_cases; cbn.
  all: try (by eexists).
  all: try (eexists; split; [by apply lookup_app_l_Some|done]).
  all: destruct (decide (self' = self)) as [->|Hne];
    [ rewrite list_lookup_insert_eq by (by eapply lookup_lt_Some);
      simplify_eq; eexists; split; [done|]; repeat split; cbn; congruence
    | rewrite list_lookup_insert_ne by done; by eexists ].
Qed.

Lemma step_keeps_Settings_cache st st' self :
  Config.step environment st st' ->
  Config.Settings_cache st = Some self ->
  Config.Settings_cache st' = Some self.
Proof.
  intros [| | | | | |self'|self'|self'|self'] Hself; cfg_cases; cbn; congruence.
Qed.

Lemma later_keeps_attributes st st' self obj :
  Config.later environment st st' ->
  Config.objects st !! self = Some obj ->
  exists obj', Config.objects st' !! self = Some obj' /\ Config.attributes_kept obj obj'.
Proof.
  intros Hlater. revert obj.
  induction Hlater as [|st1 st2 st3 Hstep _ IH]; intros obj Hobj; [by eexists|].
  destruct (step_keeps_attributes _ _ _ _ Hstep Hobj) as (obj2 & Hobj2 & Hkept).
  destruct (IH _ Hobj2) as (obj3 & Hobj3 & Hkept').
  exists obj3. split; [done|].
  destruct Hkept as (?&?&?&?), Hkept' as (?&?&?&?). repeat split; eauto.
Qed.

Lemma later_keeps_Settings_cache st st' self :
  Config.later environment st st' ->
  Config.Settings_cache st = Some self ->
  Config.Settings_cache st' = Some self.
Proof.
  induction 1 as [|st1 st2 st3 Hstep _ IH]; [done|].
  intros Hself. apply IH. by eapply step_keeps_Settings_cache.
Qed.

(** X8.  Each property of [Settings] reads the environment at most once per
    instance: after it has returned a configuration, every later access on
    that instance returns the same configuration and changes nothing,
    whatever else was loaded or accessed in between. *)
Theorem property_returns_what_it_returned_before self :
  (forall st0 c st st',
      Config.qdrant_database_config environment self st0 = (Returned c, st) ->
      Config.later environment st st' ->
      Config.qdrant_database_config environment self st' = (Returned c, st'))
  /\ (forall st0 c st st',
        Config.milvus_database_config environment self st0 = (Returned c, st) ->
        Config.later environment st st' ->
        Config.milvus_database_config environment self st' = (Returned c, st'))
  /\ (forall st0 c st st',
        Config.mongodb_database_config environment self st0 = (Returned c, st) ->
        Config.later environment st st' ->
        Config.mongodb_database_config environment self st' = (Returned c, st'))
  /\ (forall st0 c st st',
        Config.pinecone_database_config environment self st0 = (Returned c, st) ->
        Config.later environment st st' ->
        Config.pinecone_database_config environment self st' = (Returned c, st')).
Proof.
  repeat split; intros st0 c st st' Hrun Hlater.
  - destruct (qdrant_database_config_sets _ _ _ _ Hrun) as (obj & Hobj & Hattr).
    destruct (later_keeps_attributes _ _ _ _ Hlater Hobj) as (obj' & Hobj' & Hk & _).
    apply Hk in Hattr. cfg_unfold. by rewrite Hobj', Hattr.
  - destruct (milvus_database_config_sets _ _ _ _ Hrun) as (obj & Hobj & Hattr).
    destruct (later_keeps_attributes _ _ _ _ Hlater Hobj)
      as (obj' & Hobj' & _ & Hk & _).
    apply Hk in Hattr. cfg_unfold. by rewrite Hobj', Hattr.
  - destruct (mongodb_database_config_sets _ _ _ _ Hrun) as (obj & Hobj & Hattr).
    destruct (later_keeps_attributes _ _ _ _ Hlater Hobj)
      as (obj' & Hobj' & _ & _ & Hk & _).
    apply Hk in Hattr. cfg_unfold. by rewrite Hobj', Hattr.
  - destruct (pinecone_database_config_sets _ _ _ _ Hrun) as (obj & Hobj & Hattr).
    destruct (later_keeps_attributes _ _ _ _ Hlater Hobj)
      as (obj' & Hobj' & _ & _ & _ & Hk).
    apply Hk in Hattr. cfg_unfold. by rewrite Hobj', Hattr.
Qed.

Lemma constructed_snoc_raised class {R} (c : Config.ConfigCall R) e l :
  Config.constructed class (l ++ [Config.Loaded c (Raised e)])
  = Config.constructed class l.
Proof.
  unfold Config.constructed. rewrite filter_app, length_app.
  rewrite filter_cons_False; [by rewrite filter_nil, Nat.add_0_r|].
  by intros [_ ?].
Qed.

Lemma constructed_snoc_other class {R} (c : Config.ConfigCall R) r l :
  Config.call_name c <> class ->
  Config.constructed class (l ++ [Config.Loaded c r])
  = Config.constructed class l.
Proof.
  intros Hne. unfold Config.constructed. rewrite filter_app, length_app.
  rewrite filter_cons_False; [by rewrite filter_nil, Nat.add_0_r|].
  by intros [? _].
Qed.

Lemma constructed_snoc_returned {R} (c : Config.ConfigCall R) x l :
  Config.constructed (Config.call_name c) (l ++ [Config.Loaded c (Returned x)])
  = S (Config.constructed (Config.call_name c) l).
Proof.
  unfold Config.constructed. rewrite filter_app, length_app.
  rewrite filter_cons_True by done. rewrite filter_nil. cbn. lia.
Qed.

(** What the log of loads and the four Config.caches are after a property was
    accessed: those of the state before, or those after the [get_settings]
    of its class. *)

Lemma caches_match_loads_registry st st' :
  Config.registry st' = Config.registry st -> Config.caches_match_loads st -> Config.caches_match_loads st'.
Proof. unfold Config.caches_match_loads. by intros [= -> -> -> -> ->]. Qed.

Ltac snoc_constructed :=
  rewrite ?constructed_snoc_raised;
  repeat first
    [ rewrite constructed_snoc_other by (cbn; discriminate)
    | rewrite (constructed_snoc_returned Config.QDrantConfig_init)
    | rewrite (constructed_snoc_returned Config.MilvusConfig_init)
    | rewrite (constructed_snoc_returned Config.MongoDBConfig_init)
    | rewrite (constructed_snoc_returned Config.PineconeConfig_init) ].

Ltac settle_caches_match H :=
  unfold Config.caches_match_loads in *;
  cbn [fst snd Config.loads Config.objects Config.QDrantConfig_cache
       Config.MilvusConfig_cache Config.MongoDBConfig_cache
       Config.PineconeConfig_cache Config.Settings_cache] in *;
  repeat match goal with
         | Hc : ?cache = _ |- _ => rewrite Hc in H
         end;
  destruct H as (?Hq & ?Hm & ?Hmo & ?Hp);
  snoc_constructed; cbn [Config.call_name];
  repeat split; first [done|congruence].

Lemma get_settings_keep_caches_match st :
  Config.caches_match_loads st ->
  Config.caches_match_loads (Config.QDrantConfig_get_settings environment st).2
  /\ Config.caches_match_loads (Config.MilvusConfig_get_settings environment st).2
  /\ Config.caches_match_loads (Config.MongoDBConfig_get_settings environment st).2
  /\ Config.caches_match_loads (Config.PineconeConfig_get_settings environment st).2
  /\ Config.caches_match_loads (Config.Settings_new environment st).2
  /\ Config.caches_match_loads (Config.get_settings environment st).2.
Proof.
  intros Hinv. repeat split.
  all: cfg_unfold; repeat (case_match; cfg_unfold); simplify_eq.
  all: try exact Hinv.
  all: settle_caches_match Hinv.
Qed.

Lemma property_registry self st :
  (Config.registry (Config.qdrant_database_config environment self st).2 = Config.registry st
   \/ Config.registry (Config.qdrant_database_config environment self st).2
      = Config.registry (Config.QDrantConfig_get_settings environment st).2)
  /\ (Config.registry (Config.milvus_database_config environment self st).2 = Config.registry st
      \/ Config.registry (Config.milvus_database_config environment self st).2
         = Config.registry (Config.MilvusConfig_get_settings environment st).2)
  /\ (Config.registry (Config.mongodb_database_config environment self st).2 = Config.registry st
      \/ Config.registry (Config.mongodb_database_config environment self st).2
         = Config.registry (Config.MongoDBConfig_get_settings environment st).2)
  /\ (Config.registry (Config.pinecone_database_config environment self st).2 = Config.registry st
      \/ Config.registry (Config.pinecone_database_config environment self st).2
         = Config.registry (Config.PineconeConfig_get_settings environment st).2).
Proof.
  unfold Config.registry. repeat split; cfg_split.
  all: first [by left|by right].
Qed.

Lemma step_keeps_caches_match st st' :
  Config.step environment st st' -> Config.caches_match_loads st -> Config.caches_match_loads st'.
Proof.
  intros Hstep Hst.
  destruct (get_settings_keep_caches_match st Hst) as (Hq & Hm & Hmo & Hp & Hn & Hg).
  destruct Hstep as [| | | | | |self|self|self|self]; try done.
  - destruct (property_registry self st) as ([H|H] & _);
      eapply caches_match_loads_registry; eauto.
  - destruct (property_registry self st) as (_ & [H|H] & _);
      eapply caches_match_loads_registry; eauto.
  - destruct (property_registry self st) as (_ & _ & [H|H] & _);
      eapply caches_match_loads_registry; eauto.
  - destruct (property_registry self st) as (_ & _ & _ & [H|H]);
      eapply caches_match_loads_registry; eauto.
Qed.

(** X9.  Over the life of a process each backend configuration is constructed
    successfully at most once, however many [Settings] instances there are
    and however often the properties and [get_settings] are used. *)
Theorem configuration_constructed_at_most_once st :
  Config.later environment Config.fresh_process st ->
  (Config.constructed "QDrantConfig" (Config.loads st) <= 1)%nat
  /\ (Config.constructed "MilvusConfig" (Config.loads st) <= 1)%nat
  /\ (Config.constructed "MongoDBConfig" (Config.loads st) <= 1)%nat
  /\ (Config.constructed "PineconeConfig" (Config.loads st) <= 1)%nat.
Proof.
  intros Hlater.
  assert (Config.caches_match_loads st) as (Hq & Hm & Hmo & Hp).
  { unfold Config.later in Hlater.
    eapply (rtc_ind_r Config.caches_match_loads); [|intros st2 st3 _ Hstep IH|exact Hlater].
    - by repeat split.
    - by eapply step_keeps_caches_match. }
  rewrite Hq, Hm, Hmo, Hp. clear. split; [|split; [|split]]; case_match; lia.
Qed.

(** X10.  A load that fails is not cached: when a property of an instance raises,
    the attributes of all instances and every [lru_cache] are as before, and
    the next access of that property constructs the class again. *)
Theorem failed_load_is_not_cached self obj st e :
  Config.objects st !! self = Some obj ->
  ((Config.qdrant_database_config environment self st).1 = Raised e ->
     let st' := (Config.qdrant_database_config environment self st).2 in
     Config.caches st' = Config.caches st
     /\ Config.loads (Config.qdrant_database_config environment self st').2
        = Config.loads st' ++
          [Config.Loaded Config.QDrantConfig_init
             (environment _ (Config.loads st') Config.QDrantConfig_init)])
  /\ ((Config.milvus_database_config environment self st).1 = Raised e ->
     let st' := (Config.milvus_database_config environment self st).2 in
     Config.caches st' = Config.caches st
     /\ Config.loads (Config.milvus_database_config environment self st').2
        = Config.loads st' ++
          [Config.Loaded Config.MilvusConfig_init
             (environment _ (Config.loads st') Config.MilvusConfig_init)])
  /\ ((Config.mongodb_database_config environment self st).1 = Raised e ->
     let st' := (Config.mongodb_database_config environment self st).2 in
     Config.caches st' = Config.caches st
     /\ Config.loads (Config.mongodb_database_config environment self st').2
        = Config.loads st' ++
          [Config.Loaded Config.MongoDBConfig_init
             (environment _ (Config.loads st') Config.MongoDBConfig_init)])
  /\ ((Config.pinecone_database_config environment self st).1 = Raised e ->
     let st' := (Config.pinecone_database_config environment self st).2 in
     Config.caches st' = Config.caches st
     /\ Config.loads (Config.pinecone_database_config environment self st').2
        = Config.loads st' ++
          [Config.Loaded Config.PineconeConfig_init
             (environment _ (Config.loads st') Config.PineconeConfig_init)]).
Proof.
  intros Hobj. unfold Config.caches. repeat split.
  all: revert H; cfg_unfold; rewrite Hobj; cfg_split; try by intros [=].
  all: try done.
  all: intros _; cfg_unfold; rewrite ?Hobj; cfg_split; first [done|congruence].
Qed.


Lemma get_settings_sets st self st1 :
  Config.get_settings environment st = (Returned self, st1) ->
  Config.Settings_cache st1 = Some self.
Proof.
  cfg_unfold. destruct (Config.Settings_cache st) eqn:Hc.
  { by intros [= <- <-]. }
  destruct (environment _ _ _) as [[port address]|e]; cfg_unfold.
  - by intros [= <- <-].
  - by intros [=].
Qed.

Lemma module_settings_settles st0 cfg st :
  Config.module_settings environment st0 = (Returned cfg, st) -> settled cfg st.
Proof.
  unfold Config.module_settings.
  unfold mbind at 1, StateExc_bind at 1.
  destruct (Config.get_settings environment st0) as [[self|e] s1] eqn:H0;
    [|by intros [=]].
  unfold mbind at 1, StateExc_bind at 1.
  destruct (Config.pinecone_database_config environment self s1)
    as [[p|e] s2] eqn:H1; [|by intros [=]].
  unfold mbind at 1, StateExc_bind at 1.
  destruct (Config.milvus_database_config environment self s2)
    as [[m|e] s3] eqn:H2; [|by intros [=]].
  unfold mbind at 1, StateExc_bind at 1.
  destruct (Config.mongodb_database_config environment self s3)
    as [[mo|e] s4] eqn:H3; [|by intros [=]].
  unfold mbind at 1, StateExc_bind at 1.
  destruct (Config.qdrant_database_config environment self s4)
    as [[q|e] s5] eqn:H4; [|by intros [=]].
  intros [= <- <-].
  assert (Config.step environment s1 s2) as S1
    by (replace s2 with (Config.pinecone_database_config environment self s1).2
          by (by rewrite H1); constructor).
  assert (Config.step environment s2 s3) as S2
    by (replace s3 with (Config.milvus_database_config environment self s2).2
          by (by rewrite H2); constructor).
  assert (Config.step environment s3 s4) as S3
    by (replace s4 with (Config.mongodb_database_config environment self s3).2
          by (by rewrite H3); constructor).
  assert (Config.step environment s4 s5) as S4
    by (replace s5 with (Config.qdrant_database_config environment self s4).2
          by (by rewrite H4); constructor).
  apply get_settings_sets in H0.
  destruct (pinecone_database_config_sets _ _ _ _ H1) as (o2 & Ho2 & Hp).
  destruct (milvus_database_config_sets _ _ _ _ H2) as (o3 & Ho3 & Hm).
  destruct (mongodb_database_config_sets _ _ _ _ H3) as (o4 & Ho4 & Hmo).
  destruct (qdrant_database_config_sets _ _ _ _ H4) as (o5 & Ho5 & Hq).
  destruct (step_keeps_attributes _ _ _ _ S2 Ho2) as (o3' & Ho3' & K2).
  destruct (step_keeps_attributes _ _ _ _ S3 Ho3) as (o4' & Ho4' & K3).
  destruct (step_keeps_attributes _ _ _ _ S4 Ho4) as (o5' & Ho5' & K4).
  simplify_eq.
  destruct K2 as (_ & _ & _ & K2), K3 as (_ & K3m & _ & K3p),
    K4 as (_ & K4m & K4mo & K4p).
  exists self, o5. cbn. repeat split; auto.
  repeat (eapply step_keeps_Settings_cache; [eassumption|]). done.
Qed.

Lemma settled_later cfg st st' :
  Config.later environment st st' -> settled cfg st -> settled cfg st'.
Proof.
  intros Hlater (self & obj & Hself & Hobj & Hq & Hm & Hmo & Hp).
  destruct (later_keeps_attributes _ _ _ _ Hlater Hobj)
    as (obj' & Hobj' & Kq & Km & Kmo & Kp).
  exists self, obj'. repeat split; auto.
  by eapply later_keeps_Settings_cache.
Qed.

(** X12.  Streamlit runs the script again on every interaction.  Once the head of
    [interface.py] has returned in a process, every later run of it returns
    the same four configurations without constructing anything and without
    changing any state. *)
Theorem module_settings_rerun st0 cfg st st' :
  Config.module_settings environment st0 = (Returned cfg, st) ->
  Config.later environment st st' ->
  Config.module_settings environment st' = (Returned cfg, st').
Proof.
  intros Hrun%module_settings_settles Hlater.
  destruct (settled_later _ _ _ Hlater Hrun)
    as (self & obj & Hself & Hobj & Hq & Hm & Hmo & Hp).
  unfold Config.module_settings. cfg_unfold.
  rewrite Hself. cfg_unfold. rewrite Hobj, Hp. cfg_unfold.
  rewrite Hobj, Hm. cfg_unfold. rewrite Hobj, Hmo. cfg_unfold.
  rewrite Hobj, Hq. by destruct cfg.
Qed.

End ConfigProperties.

(** * Properties of the script *)

Section ScriptProperties.

Context {float : Type}.
Variable oracle : forall R : Type, list (@LogEntry float) -> @Call float R -> Outcome R.
Variable settings : Settings.
Variable io_oracle : forall R : Type, list (@IoEntry float) -> @IoCall float R -> Outcome R.

Implicit Types (s : @Session float) (path : Path) (delta : list (@IoEntry float)).

Ltac script_unfold :=
  unfold io, sdk, with_, try_pass, init_docs, get_docs, set_docs, new_local_docs,
    append_local_docs, get_local_docs, mbind, StateExc_bind, mret, StateExc_ret in *;
  cbn [fst snd adapter session_docs local_docs io_log] in *.

Ltac ask_io :=
  match goal with
  | |- context [io_oracle ?R ?l ?c] =>
      let r := fresh "r" in
      let Hr := fresh "Hr" in
      destruct (io_oracle R l c) as [r|r] eqn:Hr
  end.

Ltac script_run := script_unfold; repeat (ask_io; script_unfold).

Ltac find_entry :=
  first [ apply list_elem_of_here
        | apply list_elem_of_further; find_entry
        | apply elem_of_app; right; find_entry ].

Lemma read_document_trace path s :
  adapter (read_document io_oracle path s).2 = adapter s
  /\ session_docs (read_document io_oracle path s).2 = session_docs s
  /\ exists delta,
       io_log (read_document io_oracle path s).2 = io_log s ++ delta
       /\ io_names delta ∈ [["open"]; ["open"; "read"; "close"]]
       /\ local_docs (read_document io_oracle path s).2
          = local_docs s ++ documents_read delta
       /\ (documents_read delta = []
           \/ exists text, documents_read delta = [(Path_name path, text)])
       /\ match (read_document io_oracle path s).1 with
          | Returned _ => True
          | Raised e => is_Exception e = false /\ e ∈ exceptions_raised delta
          end.
Proof.
  unfold read_document. script_run.
  all: repeat match goal with
         | |- context [is_Exception ?e] => destruct (is_Exception e) eqn:?
         end.
  all: cbn [fst snd adapter session_docs local_docs io_log].
  all: split; [done|]; split; [done|].
  all: rewrite <- ?(assoc_L (++)); eexists; (split; [reflexivity|]).
  all: cbn; rewrite ?app_nil_r.
  all: split; [find_entry|]; split; [done|]; split; [eauto|].
  all: first [done|split; [done|find_entry]].
Qed.


Lemma documents_read_app delta1 delta2 :
  documents_read (delta1 ++ delta2) = documents_read delta1 ++ documents_read delta2.
Proof. apply omap_app. Qed.

Lemma read_if_file_grows path s :
  adapter (read_if_file io_oracle path s).2 = adapter s
  /\ session_docs (read_if_file io_oracle path s).2 = session_docs s
  /\ exists delta,
       io_log (read_if_file io_oracle path s).2 = io_log s ++ delta
       /\ local_docs (read_if_file io_oracle path s).2
          = local_docs s ++ documents_read delta.
Proof.
  unfold read_if_file. script_unfold.
  destruct (io_oracle bool (io_log s) (Path_is_dir path)) as [[]|e] eqn:Hdir;
    cbn [fst snd adapter session_docs local_docs io_log].
  - repeat split; try done. eexists; split; [reflexivity|]. cbn. by rewrite app_nil_r.
  - match goal with |- context [read_document io_oracle path ?s1] =>
      destruct (read_document_trace path s1) as (Ha & Hd & delta & Hl & _ & Hdocs & _);
      rewrite Ha, Hd, Hl, Hdocs
    end.
    cbn [fst snd adapter session_docs local_docs io_log].
    repeat split; try done.
    eexists; split; [by rewrite <- (assoc_L (++))|].
    by rewrite documents_read_app.
  - repeat split; try done. eexists; split; [reflexivity|]. cbn. by rewrite app_nil_r.
Qed.

Lemma upload_loop_grows paths s :
  adapter (for_ paths (read_if_file io_oracle) s).2 = adapter s
  /\ session_docs (for_ paths (read_if_file io_oracle) s).2 = session_docs s
  /\ exists delta,
       io_log (for_ paths (read_if_file io_oracle) s).2 = io_log s ++ delta
       /\ local_docs (for_ paths (read_if_file io_oracle) s).2
          = local_docs s ++ documents_read delta.
Proof.
  revert s. induction paths as [|path paths IH]; intros s; cbn [for_].
  - repeat split; try done. exists []. by rewrite !app_nil_r.
  - unfold mbind, StateExc_bind.
    destruct (read_if_file_grows path s) as (Ha & Hd & delta & Hl & Hdocs).
    destruct (read_if_file io_oracle path s) as [[[]|e] s1]; cbn [fst snd] in *.
    + destruct (IH s1) as (Ha' & Hd' & delta' & Hl' & Hdocs').
      rewrite Ha', Hd', Hl', Hdocs', Ha, Hd, Hl, Hdocs.
      repeat split; try done.
      exists (delta ++ delta'). by rewrite documents_read_app, !(assoc_L (++)).
    + repeat split; try done. eauto.
Qed.

Ltac ask_loop :=
  match goal with
  | |- context [for_ ?ps (read_if_file io_oracle) ?st] =>
      let H := fresh "H" in
      pose proof (upload_loop_grows ps st) as H;
      destruct (for_ ps (read_if_file io_oracle) st) as [[[]|?] ?];
      cbn [fst snd adapter session_docs local_docs io_log] in H;
      destruct H as (? & ? & ? & ? & ?)
  end.

Lemma last_cons_snoc {A} (a : A) l x : last (a :: l ++ [x]) = Some x.
Proof. by rewrite app_comm_cons, last_snoc. Qed.

Lemma upload_documents_trace data s :
  adapter (upload_documents io_oracle data s).2 = adapter s
  /\ exists delta,
       io_log (upload_documents io_oracle data s).2 = io_log s ++ delta
       /\ ((upload_documents io_oracle data s).1 = Returned tt ->
           session_docs (upload_documents io_oracle data s).2
           = Some (documents_read delta))
       /\ (session_docs (upload_documents io_oracle data s).2 = session_docs s
           \/ session_docs (upload_documents io_oracle data s).2
              = Some (documents_read delta)
              /\ "glob" ∈ io_names delta)
       /\ (forall tmpdir, head delta ≫= created = Some tmpdir ->
           last delta ≫= removed = Some tmpdir).
Proof.
  unfold upload_documents. script_unfold.
  repeat (first [ask_loop | ask_io]; script_unfold).
  all: repeat match goal with H : io_oracle _ _ _ = _ |- _ => clear H end.
  all: split; [congruence|].
  all: repeat match goal with
         | H : io_log _ = _ |- _ => rewrite H; clear H
         | H : local_docs _ = _ |- _ => rewrite H; clear H
         | H : session_docs _ = _ |- _ => rewrite H; clear H
         end.
  all: eexists; split; [rewrite <- ?(assoc_L (++)); cbn [app]; reflexivity|].
  all: unfold documents_read; rewrite ?last_cons, ?last_app, ?omap_app;
    cbn; rewrite ?omap_app, ?app_nil_r.
  all: split; [try done|split; [|done]].
  all: first [by left|right; split; [done|]].
  all: unfold io_names; rewrite ?fmap_app; cbn; set_solver.
Qed.

(** X14.  The upload block.  It never touches the adapter.  If it returns, the
    documents of the session are exactly the files that were read as text,
    in the order they were read, each under its file name.  However it
    ends, the documents of the session are either as they were or replaced
    by the files read, and they are replaced only in a run that got as far
    as listing the extracted files.  Once the temporary directory was
    created, the last thing the block does, however it ends, is to remove
    that directory. *)
Theorem upload_documents_outcome data s :
  adapter (upload_documents io_oracle data s).2 = adapter s
  /\ exists delta,
       io_log (upload_documents io_oracle data s).2 = io_log s ++ delta
       /\ ((upload_documents io_oracle data s).1 = Returned tt ->
           session_docs (upload_documents io_oracle data s).2
           = Some (documents_read delta))
       /\ (session_docs (upload_documents io_oracle data s).2 = session_docs s
           \/ session_docs (upload_documents io_oracle data s).2
              = Some (documents_read delta)
              /\ "glob" ∈ io_names delta)
       /\ (forall tmpdir, head delta ≫= created = Some tmpdir ->
           last delta ≫= removed = Some tmpdir).
Proof. apply upload_documents_trace. Qed.

Lemma upload_documents_frame data s :
  adapter (upload_documents io_oracle data s).2 = adapter s
  /\ exists delta, io_log (upload_documents io_oracle data s).2 = io_log s ++ delta.
Proof.
  destruct (upload_documents_trace data s) as (Ha & delta & Hl & _). eauto.
Qed.

Lemma quiet_io {R} (c : IoCall R) : quiet (io io_oracle c).
Proof. intros s. unfold io. cbn. eauto. Qed.

Lemma quiet_ret {A} (a : A) : quiet (float:=float) (mret a).
Proof. intros s. cbn. repeat split. exists []. by rewrite app_nil_r. Qed.

Lemma quiet_bind {A B} (m : @Script float A) (f : A -> @Script float B) :
  quiet m -> (forall a, quiet (f a)) -> quiet (m ≫= f).
Proof.
  intros Hm Hf s. unfold mbind, StateExc_bind.
  destruct (Hm s) as (Ha & Hd & delta & Hl).
  destruct (m s) as [[a|e] s1]; cbn [fst snd] in *; [|eauto].
  destruct (Hf a s1) as (Ha' & Hd' & delta' & Hl').
  rewrite Ha', Hd', Hl', Ha, Hd, Hl. repeat split.
  exists (delta ++ delta'). by rewrite (assoc_L (++)).
Qed.

Lemma quiet_for {A} (xs : list A) (body : A -> @Script float unit) :
  (forall x, quiet (body x)) -> quiet (for_ xs body).
Proof.
  intros Hbody. induction xs as [|x xs IH]; cbn [for_].
  - apply quiet_ret.
  - by apply quiet_bind.
Qed.

Lemma write_result_quiet result : quiet (write_result io_oracle result).
Proof.
  destruct result as [[title text] score]. unfold write_result.
  repeat first [apply quiet_bind; [|intros ?] | apply quiet_io].
Qed.

Ltac script_unfold_goal :=
  unfold io, sdk, with_, try_pass, init_docs, get_docs, set_docs, new_local_docs,
    append_local_docs, get_local_docs, mbind, StateExc_bind, mret, StateExc_ret;
  cbn [fst snd adapter session_docs local_docs io_log].

Ltac ask_io_goal :=
  match goal with
  | |- context [io_oracle ?R ?l ?c] => destruct (io_oracle R l c)
  end.

Ltac ask_script :=
  match goal with
  | |- context [upload_documents io_oracle ?d ?st] =>
      destruct (upload_documents_frame d st) as (? & ? & ?);
      destruct (upload_documents io_oracle d st) as [[[]|?] ?]
  | |- context [get_connection oracle settings ?n ?st] =>
      destruct (get_connection_emits oracle settings n st)
        as (? & ? & [? ?]%connects_only_quiet);
      destruct (get_connection oracle settings n st) as [[[?|]|?] ?]
  | |- context [index_documents oracle settings ?h ?d ?st] =>
      destruct (index_documents_emits oracle settings h d st)
        as (? & ? & ?%asks_nothing_quiet);
      destruct (index_documents oracle settings h d st) as [[[]|?] ?]
  | |- context [search_documents oracle settings ?h ?q ?k ?st] =>
      destruct (search_documents_emits oracle settings h q k st)
        as (? & ? & [? ?]%reads_only_quiet);
      destruct (search_documents oracle settings h q k st) as [[?|?] ?]
  | |- context [for_ ?rs (write_result io_oracle) ?st] =>
      destruct (quiet_for rs _ (write_result_quiet) st) as (? & ? & ? & ?);
      destruct (for_ rs (write_result io_oracle) st) as [[[]|?] ?]
  | |- context [bool_decide ?P] => destruct (bool_decide_reflect P)
  | |- context [if ?b then _ else _] => is_var b; destruct b
  | |- context [match ?o with Some _ => _ | None => _ end] => is_var o; destruct o
  end; cbn [fst snd adapter session_docs local_docs io_log log] in *.

(** X15.  One run of the script, whatever the user does and however the calls
    end.  Records are written to a backend only if the "Index Documents"
    button was clicked, and that button is only there while the session
    holds documents.  A backend is queried only if "Search" was clicked, and
    every query asks for 3 hits. *)
Theorem script_backend_calls s :
  exists iod ad,
    io_log (script oracle settings io_oracle s).2 = io_log s ++ iod
    /\ log (adapter (script oracle settings io_oracle s).2) = log (adapter s) ++ ad
    /\ (writes ad <> [] ->
        Io (float:=float) (st_button "Index Documents") (Returned true) ∈ iod
        /\ exists docs, session_docs (script oracle settings io_oracle s).2 = Some docs
                        /\ docs <> [])
    /\ Forall (fun en => asked_limit (ev_call en) = Some (VInt 3)) (queries ad)
    /\ (queries ad <> [] ->
        Io (float:=float) (st_button "Search") (Returned true) ∈ iod).
Proof.
  unfold script, index_button, search_button. script_unfold_goal.
  repeat (first [ask_script | ask_io_goal]; script_unfold_goal).
  all: repeat match goal with
         | H : io_log _ = _ |- _ => rewrite H in *; clear H
         | H : log _ = _ |- _ => rewrite H in *; clear H
         | H : adapter _ = _ |- _ => rewrite H in *; clear H
         | H : session_docs _ = _ |- _ => rewrite H in *; clear H
         end.
  all: eexists _, _;
    (split; [rewrite <- ?(assoc_L (++)); cbn [app]; reflexivity|]);
    (split; [rewrite <- ?(assoc_L (++));
             first [reflexivity|symmetry; apply app_nil_r]|]).
  all: rewrite ?writes_app, ?queries_app;
    repeat match goal with
      | H : writes _ = [] |- _ => rewrite H; clear H
      | H : queries _ = [] |- _ => rewrite H; clear H
      end; cbn [app]; rewrite ?app_nil_r.
  all: split; [intros Hw; first [done|split; [find_entry|]]
              |split; [try done|intros Hl; first [done|find_entry]]].
  all: destruct (session_docs _); cbn in *; [eauto|done].
Qed.

End ScriptProperties.

(** * Further runs on concrete inputs *)

Section Scenarios.

Import Demo Scenes.

(** Connect to Milvus, index two documents, search: the handle is still the
    one of the first call. *)
Lemma handle_survives_later_operations_witness :
  connect_milvus = (Returned (Some milvus), connected)
  /\ later store_oracle settings connected searched
  /\ get_connection store_oracle settings "Milvus" searched
     = (Returned (Some milvus), searched).
Proof.
  assert (connect_milvus = (Returned (Some milvus), connected)) as Hrun
    by (vm_compute; reflexivity).
  assert (later store_oracle settings connected searched) as Hlater.
  { eapply rtc_l; [exact (step_index_documents _ _ connected milvus two_documents)|].
    apply rtc_once.
    exact (step_search_documents _ _ indexed milvus "cats are mammals" 3). }
  split; [exact Hrun|]. split; [exact Hlater|].
  exact (handle_survives_later_operations
           store_oracle settings "Milvus" start milvus connected searched Hrun Hlater).
Defined.

(** A second backend, connected late in the session. *)
Lemma get_connection_returns_client_of_backend_witness :
  later store_oracle settings fresh_session searched
  /\ connect_qdrant_later = (Returned (Some second_qdrant), connect_qdrant_later.2)
  /\ client_class "QDrant" = Some (kind second_qdrant).
Proof.
  assert (later store_oracle settings fresh_session searched) as Hlater.
  { eapply rtc_l; [exact (step_get_connection _ _ fresh_session "Milvus")|].
    eapply rtc_l; [exact (step_index_documents _ _ connected milvus two_documents)|].
    apply rtc_once.
    exact (step_search_documents _ _ indexed milvus "cats are mammals" 3). }
  assert (connect_qdrant_later
          = (Returned (Some second_qdrant), connect_qdrant_later.2)) as Hrun
    by (vm_compute; reflexivity).
  split; [exact Hlater|]. split; [exact Hrun|].
  exact (get_connection_returns_client_of_backend
           store_oracle settings "QDrant" searched second_qdrant
           connect_qdrant_later.2 Hlater Hrun).
Defined.

(** Pinecone in a fresh session, the index not being there yet. *)
Lemma pinecone_index_created_only_if_missing_witness :
  cache start !! "Pinecone" = None
  /\ connect_pinecone = (Returned (Some pinecone), connect_pinecone.2)
  /\ exists has,
       log connect_pinecone.2 = log start ++
         [Entry (Pinecone_init pinecone "key") (Returned tt);
          Entry (Pinecone_has_index pinecone "docs") (Returned has)] ++
         (if has then []
          else [Entry (Pinecone_create_index_for_model pinecone "docs"
                         "aws" "us-east-1" pinecone_embed)
                      (Returned tt)]).
Proof.
  assert (cache start !! "Pinecone" = None) as Hc by reflexivity.
  assert (connect_pinecone = (Returned (Some pinecone), connect_pinecone.2))
    as Hrun by (vm_compute; reflexivity).
  split; [exact Hc|]. split; [exact Hrun|].
  exact (pinecone_index_created_only_if_missing
           store_oracle settings start pinecone connect_pinecone.2 Hc Hrun).
Defined.

(** Two documents indexed on Pinecone. *)
Lemma index_writes_generated_identifiers_witness :
  (kind pinecone = PineconeClient \/ kind pinecone = QdrantClient)
  /\ index_pinecone = (Returned tt, index_pinecone.2)
  /\ exists pre write,
       log index_pinecone.2 = log start ++ pre ++ [write]
       /\ (length (object_ids pre) = length two_documents
           /\ uuids pre = []
           /\ write =
                Entry (Index_upsert_records pinecone "docs" "namespace"
                         (zip_with
                            (fun _id doc =>
                               VDict [("_id", VStr _id); ("title", VStr doc.1);
                                      ("text", VStr doc.2)])
                            (object_ids pre) two_documents))
                      (Returned tt)
           /\ ids_written (pre ++ [write]) = VStr <$> object_ids pre)
       /\ writes (pre ++ [write]) = [length two_documents].
Proof.
  assert (index_pinecone = (Returned tt, index_pinecone.2)) as Hrun
    by (vm_compute; reflexivity).
  split; [left; reflexivity|]. split; [exact Hrun|].
  exact (index_writes_generated_identifiers
           store_oracle settings pinecone two_documents start index_pinecone.2
           (or_introl eq_refl) Hrun).
Defined.

(** Qdrant answers with three hits, the second without title. *)
Lemma search_raises_on_first_malformed_hit_witness :
  log search_ragged.2 = log start ++ [] ++ [ragged_answer]
  /\ answered_hits ragged_answer
     = Some ([ObjectHit canned_hit] ++ ObjectHit untitled_hit :: [ObjectHit canned_hit])
  /\ Forall (fun hit => exists r, hit_tuple (kind qdrant) hit = Returned r)
       [ObjectHit canned_hit]
  /\ hit_tuple (kind qdrant) (ObjectHit untitled_hit) = Raised (KeyError "title")
  /\ search_ragged.1 = Raised (KeyError "title").
Proof.
  assert (log search_ragged.2 = log start ++ [] ++ [ragged_answer]) as Hlog
    by (vm_compute; reflexivity).
  assert (answered_hits ragged_answer
          = Some ([ObjectHit canned_hit] ++ ObjectHit untitled_hit
                    :: [ObjectHit canned_hit])) as Hhits
    by (vm_compute; reflexivity).
  assert (Forall (fun hit => exists r, hit_tuple (kind qdrant) hit = Returned r)
            [ObjectHit canned_hit]) as Hgood.
  { constructor; [|constructor]. eexists. vm_compute. reflexivity. }
  assert (hit_tuple (kind qdrant) (ObjectHit untitled_hit)
          = Raised (KeyError "title")) as Hbad
    by (vm_compute; reflexivity).
  split; [exact Hlog|]. split; [exact Hhits|]. split; [exact Hgood|].
  split; [exact Hbad|].
  exact (search_raises_on_first_malformed_hit
           ragged_oracle settings qdrant "cats" 3 start [] ragged_answer
           [ObjectHit canned_hit] (ObjectHit untitled_hit) [ObjectHit canned_hit]
           (KeyError "title") Hlog Hhits Hgood Hbad).
Defined.

(** Two instances of [Settings], each asked for the Qdrant configuration. *)
Lemma configuration_constructed_at_most_once_witness :
  Config.later complete Config.fresh_process accessed_again
  /\ Config.loaded accessed_again = ["Settings"; "QDrantConfig"; "Settings"]
  /\ (Config.constructed "QDrantConfig" (Config.loads accessed_again) <= 1)%nat.
Proof.
  assert (Config.later complete Config.fresh_process accessed_again) as Hlater.
  { eapply rtc_l; [exact (Config.step_get_settings complete Config.fresh_process)|].
    eapply rtc_l; [exact (Config.step_qdrant complete first_instance 0)|].
    eapply rtc_l; [exact (Config.step_Settings_new complete accessed)|].
    apply rtc_once. exact (Config.step_qdrant complete second_instance 1). }
  split; [exact Hlater|]. split; [vm_compute; reflexivity|].
  exact (proj1 (configuration_constructed_at_most_once complete accessed_again Hlater)).
Defined.

(** The variables of Qdrant are missing when the property is first read. *)
Lemma failed_load_is_not_cached_witness :
  Config.objects bare_instance !! 0%nat = Some bare_object
  /\ (Config.qdrant_database_config without_qdrant 0 bare_instance).1 = Raised missing
  /\ Config.caches (Config.qdrant_database_config without_qdrant 0 bare_instance).2
     = Config.caches bare_instance
  /\ Config.loaded
       (Config.qdrant_database_config without_qdrant 0
          (Config.qdrant_database_config without_qdrant 0 bare_instance).2).2
     = ["Settings"; "QDrantConfig"; "QDrantConfig"].
Proof.
  assert (Config.objects bare_instance !! 0%nat = Some bare_object) as Hobj
    by (vm_compute; reflexivity).
  assert ((Config.qdrant_database_config without_qdrant 0 bare_instance).1
          = Raised missing) as Hrun
    by (vm_compute; reflexivity).
  split; [exact Hobj|]. split; [exact Hrun|].
  split; [|vm_compute; reflexivity].
  exact (proj1 (proj1 (failed_load_is_not_cached
                         without_qdrant 0 bare_object bare_instance missing Hobj)
                  Hrun)).
Defined.

(** The head of [interface.py] run again after another instance was made and
    read. *)
Lemma module_settings_rerun_witness :
  Config.module_settings complete Config.fresh_process
  = (Returned settings, head_of_interface.2)
  /\ Config.later complete head_of_interface.2 head_later
  /\ Config.module_settings complete head_later = (Returned settings, head_later).
Proof.
  assert (Config.module_settings complete Config.fresh_process
          = (Returned settings, head_of_interface.2)) as Hrun
    by (vm_compute; reflexivity).
  assert (Config.later complete head_of_interface.2 head_later) as Hlater.
  { eapply rtc_l; [exact (Config.step_Settings_new complete head_of_interface.2)|].
    apply rtc_once.
    exact (Config.step_qdrant complete
             (Config.Settings_new complete head_of_interface.2).2 1). }
  split; [exact Hrun|]. split; [exact Hlater|].
  exact (module_settings_rerun complete Config.fresh_process settings
           head_of_interface.2 head_later Hrun Hlater).
Defined.

(** The script on the three runs of one session: upload and index, search,
    upload something that is no archive. *)
Lemma script_runs :
  (first_run.1 = Returned tt
   /\ session_docs first_run.2
      = Some [("a.txt", "cats are mammals"); ("b.txt", "the stock market fell today")]
   /\ writes (log (adapter first_run.2)) = [2%nat])
  /\ (second_run.1 = Returned tt
      /\ asked_limits (log (adapter second_run.2)) = [VInt 3])
  /\ (third_run.1 = Raised DemoScript.bad_zip
      /\ session_docs third_run.2 = session_docs second_run.2
      /\ last (io_names (io_log third_run.2)) = Some "TemporaryDirectory.cleanup").
Proof. vm_compute. by repeat split. Qed.

End Scenarios.
